(** * Packager Extras: a shallow embedding of [app.py] and its properties

    The program post-processes the zip produced by a web-app packager: it can
    patch the icon of the packaged executable and build a Windows installer.
    This development embeds the pure string functions, the archive and
    file-system steps and the widget state machine of [app.py], and states the
    properties of the specification over them.

    Conventions of the embedding:
    - a Python [str] is a [string]; a character is an [ascii] code unit.  All
      patterns the program searches for are 7-bit, so replacing on code units
      and replacing on code points coincide;
    - a raised exception is a value of [exn]; a function that can raise
      returns a [result];
    - the file system is a finite map from path to file or directory, with
      [/] standing for the path separator; a path is looked up as it is
      written, and [os.path.exists] compares paths after [os.path.normpath];
    - the external tools and codecs the program shells out to, and the
      failures of the operating system that the map cannot show, are fields
      of a [platform]. *)

From Stdlib Require Import Ascii.
From stdpp Require Import gmap strings list fin_maps.

(** ** Characters that cannot be written inside a literal *)

Definition dquote : ascii := "034"%char.
Definition newline : ascii := "010"%char.
Definition carriage_return : ascii := "013"%char.

(** ** Python string primitives *)

Module Str.

(** [s.startswith(p)] *)
Fixpoint startswith (p s : string) : bool :=
  match p with
  | EmptyString => true
  | String a p' =>
      match s with
      | EmptyString => false
      | String b s' => Ascii.eqb a b && startswith p' s'
      end
  end.

(** [s[n:]] *)
Fixpoint drop (n : nat) (s : string) : string :=
  match n, s with
  | O, _ => s
  | S _, EmptyString => EmptyString
  | S k, String _ s' => drop k s'
  end.

(** [s.endswith(p)] *)
Definition endswith (p s : string) : bool :=
  (String.length p <=? String.length s)
  && String.eqb (drop (String.length s - String.length p) s) p.

(** Concatenation of the images of the characters of [s]. *)
Fixpoint flat_map (f : ascii → string) (s : string) : string :=
  match s with
  | EmptyString => EmptyString
  | String c s' => f c +:+ flat_map f s'
  end.

(** The scan of [str.replace] for a non-empty pattern: left to right, each
    match emits [new] and the scan resumes after the matched text, so
    matches never overlap.  [skip] counts the characters of a match that
    are still to be passed over. *)
Fixpoint replace_from (old new : string) (skip : nat) (s : string) : string :=
  match s with
  | EmptyString => EmptyString
  | String c s' =>
      match skip with
      | S k => replace_from old new k s'
      | O =>
          if startswith old s
          then new +:+ replace_from old new (String.length old - 1) s'
          else String c (replace_from old new 0 s')
      end
  end.

(** [s.replace(old, new)].  With an empty pattern Python inserts [new]
    before every character and at the end. *)
Definition replace (old new s : string) : string :=
  match old with
  | EmptyString => new +:+ flat_map (λ c, String c new) s
  | String _ _ => replace_from old new 0 s
  end.

(** Number of occurrences of a character. *)
Fixpoint count (c : ascii) (s : string) : nat :=
  match s with
  | EmptyString => 0
  | String d s' => (if Ascii.eqb c d then 1 else 0) + count c s'
  end.

(** [sub in s] for strings. *)
Fixpoint contains (sub s : string) : bool :=
  startswith sub s
  || match s with
     | EmptyString => false
     | String _ s' => contains sub s'
     end.

(** The first field of [s.split(sep)] for a one-character separator, and
    the text after that separator when there is one. *)
Fixpoint split_first (sep : ascii) (s : string) : string * option string :=
  match s with
  | EmptyString => (EmptyString, None)
  | String c s' =>
      if Ascii.eqb c sep then (EmptyString, Some s')
      else let '(h, t) := split_first sep s' in (String c h, t)
  end.

(** [s.split(sep)] for a one-character separator; never the empty list. *)
Fixpoint split (sep : ascii) (s : string) : list string :=
  match s with
  | EmptyString => [EmptyString]
  | String c s' =>
      if Ascii.eqb c sep then EmptyString :: split sep s'
      else match split sep s' with
           | [] => [String c EmptyString]
           | h :: t => String c h :: t
           end
  end.

(** [sep.join(l)] *)
Fixpoint join (sep : string) (l : list string) : string :=
  match l with
  | [] => EmptyString
  | [x] => x
  | x :: l' => x +:+ sep +:+ join sep l'
  end.

End Str.

(** ** The escaping functions of [app.py] *)

Definition escape_html (s : string) : string :=
  Str.replace (String dquote "") "&quot;"
    (Str.replace "'" "&apos;"
       (Str.replace "<" "&lt;"
          (Str.replace ">" "&gt;"
             (Str.replace "&" "&amp;" s)))).

Definition unescape_html (s : string) : string :=
  Str.replace "&amp;" "&"
    (Str.replace "&gt;" ">"
       (Str.replace "&lt;" "<"
          (Str.replace "&apos;" "'"
             (Str.replace "&quot;" (String dquote "") s)))).

Definition escape_inno_value (s : string) : string :=
  Str.replace (String dquote "") "" (Str.replace "{" "{{" s).

(** ** The title pattern

    [re.search] specialised to the pattern of [get_project_title]: the
    literal opening tag, a greedy group of any characters but a line break,
    and the literal closing tag.  The search tries every start position from the left. *)

(** The group followed by [close], at the head of [s]: the group takes as many characters of
    the line as it can while [close] still follows (backtracking from the
    longest candidate to the shortest). *)
Fixpoint match_group_then (close s : string) : option string :=
  let here := if Str.startswith close s then Some EmptyString else None in
  match s with
  | EmptyString => here
  | String c s' =>
      if Ascii.eqb c newline then here
      else match match_group_then close s' with
           | Some g => Some (String c g)
           | None => here
           end
  end.

(** The whole pattern anchored at the head of [s]; the result is group 1. *)
Definition match_title_at (s : string) : option string :=
  if Str.startswith "<title>" s
  then match_group_then "</title>" (Str.drop 7 s)
  else None.

(** [re.search]: the leftmost start position with a match. *)
Fixpoint re_search_title (s : string) : option string :=
  match match_title_at s with
  | Some g => Some g
  | None =>
      match s with
      | EmptyString => None
      | String _ s' => re_search_title s'
      end
  end.

(** ** Exceptions and results *)

Inductive exn :=
| Exception (message : string)
| IndexError (message : string)
| KeyError (key : string)
| TypeError (message : string)
| AttributeError (message : string)
| FileNotFoundError (path : string)
| BadZipFile
| UnicodeDecodeError
| JSONDecodeError
| UnidentifiedImageError (path : string)
| CalledProcessError (args : list string) (returncode : Z)
| OSError (message : string).

(** [str(e)], the text that reaches the error dialog.  Exceptions raised by
    the program carry their message; for library exceptions the argument is
    shown without the surrounding CPython wording.  [OSError] stands for the
    failures of the operating system other than a missing file, whatever
    their subclass. *)
Definition exn_str (e : exn) : string :=
  match e with
  | Exception m | IndexError m | TypeError m | AttributeError m | OSError m => m
  | KeyError k => "'" +:+ k +:+ "'"
  | FileNotFoundError p => "No such file or directory: " +:+ p
  | BadZipFile => "File is not a zip file"
  | UnicodeDecodeError => "codec can't decode"
  | JSONDecodeError => "Expecting value"
  | UnidentifiedImageError p => "cannot identify image file " +:+ p
  | CalledProcessError _ _ => "Command returned non-zero exit status"
  end.

Inductive result (A : Type) :=
| Ok (a : A)
| Raise (e : exn).
Arguments Ok {A} a.
Arguments Raise {A} e.

#[global] Instance result_ret : MRet result := λ A a, Ok a.

#[global] Instance result_bind : MBind result := λ A B f r,
  match r with
  | Ok a => f a
  | Raise e => Raise e
  end.

(** ** JSON values, as [json.load] returns them *)

#[warnings="-register-all"]
Inductive json :=
| JNull
| JBool (b : bool)
| JNumber (n : Z)
| JString (s : string)
| JArray (items : list json)
| JObject (fields : list (string * json)).

(** [d[k]] on the items of a dict. *)
Fixpoint dict_get (k : string) (fields : list (string * json)) : option json :=
  match fields with
  | [] => None
  | (k', v) :: rest => if String.eqb k k' then Some v else dict_get k rest
  end.

(** [k in j]: key membership for a dict, element membership for a list,
    substring test for a string, [TypeError] for the other values. *)
Definition py_in (k : string) (j : json) : result bool :=
  match j with
  | JObject fields => Ok (bool_decide (is_Some (dict_get k fields)))
  | JArray items =>
      Ok (existsb (λ x, match x with JString s => String.eqb s k | _ => false end) items)
  | JString s => Ok (Str.contains k s)
  | _ => Raise (TypeError "argument is not iterable")
  end.

(** [j[k]] for a string key. *)
Definition py_getitem (j : json) (k : string) : result json :=
  match j with
  | JObject fields =>
      match dict_get k fields with
      | Some v => Ok v
      | None => Raise (KeyError k)
      end
  | JArray _ => Raise (TypeError "list indices must be integers or slices, not str")
  | JString _ => Raise (TypeError "string indices must be integers")
  | _ => Raise (TypeError "object is not subscriptable")
  end.

(** ** Files, the file system and the platform *)

(** What lies at a path: a file that holds text or bytes, a zip archive seen
    through its table of entries ([ZipFile.filelist], in archive order), or a
    directory.  The content of a text file is the text its bytes decode to,
    line ends as stored.  In the table of an archive an entry whose name
    ends with the separator is a directory, whatever is stored with it. *)
#[warnings="-register-all"]
Inductive file :=
| Data (content : string)
| Zip (filelist : list (string * file))
| Directory.

(** What the program observes of itself: progress lines, the processes it
    starts, the signals it emits and the dialogs it opens. *)
Inductive event :=
| ProgressUpdate (text : string)
| Spawn (args : list string)
| Extracted (extracted_contents : string)
| Success
| Error (err : string)
| ProcessStarted
| ProcessEnded
| RemoveMe
| ErrorDialog (text : string)
| SuccessDialog (text : string).

Record world := World {
  files : gmap string file;
  events : list event
}.

(** The libraries and external programs behind the calls of [app.py]. *)
Record platform := Platform {
  (** [os.path.dirname(__file__)] *)
  app_dir : string;
  (** [os.listdir(path)], in the order the platform enumerates; [None] when
      the path is not a directory *)
  listdir : gmap string file → string → option (list string);
  (** [json.load] on a file with this content; [None] when it is not JSON *)
  json_loads : string → option json;
  (** [PIL.Image.open] followed by [save(format='ICO')], when both succeed:
      the bytes of the icon *)
  image_to_ico : string → option string;
  (** [subprocess.run] once the program has started: its exit code and the
      file system it leaves behind *)
  run_process : list string → gmap string file → Z * gmap string file;
  (** the name of a fresh [tempfile.TemporaryFile] *)
  temp_name : gmap string file → string;
  (** whether [subprocess.run] can start the program named by the first
      argument *)
  can_start : list string → gmap string file → bool;
  (** whether [os.replace(src, dst)] is possible where the map does not
      tell: both paths on one volume, the directory of [dst] there, neither
      file locked *)
  can_replace : gmap string file → string → string → bool;
  (** for an image that [image_to_ico] does not convert: [None] when
      [PIL.Image.open] rejects it, and otherwise what the failed [save] leaves
      at the path it had already opened for writing, some bytes or no file *)
  failed_save : string → option (option string)
}.

(** ** The monad of the embedding: state that survives a raise *)

Definition M (A : Type) : Type := world → result A * world.

#[global] Instance M_ret : MRet M := λ A a w, (Ok a, w).

#[global] Instance M_bind : MBind M := λ A B f m w,
  match m w with
  | (Ok a, w') => f a w'
  | (Raise e, w') => (Raise e, w')
  end.

Definition raise {A : Type} (e : exn) : M A := λ w, (Raise e, w).

Definition lift {A : Type} (r : result A) : M A := λ w, (r, w).

Definition emit (ev : event) : M unit :=
  λ w, (Ok (), World (files w) (events w ++ [ev])).

Definition get_files : M (gmap string file) := λ w, (Ok (files w), w).

Definition put_files (fs : gmap string file) : M unit :=
  λ w, (Ok (), World fs (events w)).

(** ** Paths *)

(** [os.path.join(a, b)], with [/] standing for the separator: an absolute
    [b] replaces [a]; no separator is added after an empty [a] or one that
    already ends with it. *)
Definition os_path_join (a b : string) : string :=
  if Str.startswith "/" b then b
  else if String.eqb a "" || Str.endswith "/" a then a +:+ b
  else a +:+ "/" +:+ b.

(** [p] lies below the directory [dir]. *)
Definition below (dir p : string) : bool := Str.startswith (dir +:+ "/") p.

(** The path of [p] relative to [dir]. *)
Definition relative_to (dir p : string) : option string :=
  if below dir p then Some (Str.drop (String.length dir + 1) p) else None.

(** The components of [os.path.normpath]: empty and [.] components go, a
    [..] takes the component before it with it, except at the root of an
    absolute path or of a drive, where it goes alone, and at the head of a
    relative path, where it stays.  [stack] holds the components kept so
    far, the last one first. *)
Fixpoint normalize (absolute : bool) (stack segments : list string) : list string :=
  match segments with
  | [] => rev stack
  | s :: rest =>
      if String.eqb s "" || String.eqb s "." then normalize absolute stack rest
      else if String.eqb s ".." then
        match stack with
        | [] => normalize absolute (if absolute then [] else [s]) rest
        | top :: under =>
            if String.eqb top ".." then normalize absolute (s :: stack) rest
            else if Str.endswith ":" top && bool_decide (under = [])
            then normalize absolute stack rest
            else normalize absolute under rest
        end
      else normalize absolute (s :: stack) rest
  end.

(** [os.path.normpath(p)] *)
Definition normpath (p : string) : string :=
  let absolute := Str.startswith "/" p in
  let body := Str.join "/" (normalize absolute [] (Str.split "/" p)) in
  if absolute then "/" +:+ body
  else if String.eqb body "" then "." else body.

(** [os.path.exists(p)]: the path, normalized, is that of a file or of a
    directory of the map, or of a directory that holds one; the current
    directory and the root are always there. *)
Definition exists_in (fs : gmap string file) (p : string) : bool :=
  let target := normpath p in
  String.eqb target "." || String.eqb target "/"
  || existsb (λ kv, let k := normpath kv.1 in String.eqb k target || below target k)
             (map_to_list fs).

Definition os_path_exists (p : string) : M bool :=
  fs ← get_files;
  mret (exists_in fs p).

(** Something of the map lies below [p]. *)
Definition has_below (fs : gmap string file) (p : string) : bool :=
  existsb (λ kv, below p kv.1) (map_to_list fs).

(** [os.path.isdir(p)], for a path as the map has it. *)
Definition is_directory (fs : gmap string file) (p : string) : bool :=
  match fs !! p with
  | Some Directory => true
  | Some _ => false
  | None => has_below fs p
  end.

(** [open(p)] for reading: the content the file holds. *)
Definition open_read (p : string) : M string :=
  fs ← get_files;
  match fs !! p with
  | None =>
      if has_below fs p then raise (OSError ("Permission denied: " +:+ p))
      else raise (FileNotFoundError p)
  | Some (Data s) => mret s
  | Some (Zip _) => raise UnicodeDecodeError
  | Some Directory => raise (OSError ("Permission denied: " +:+ p))
  end.

(** What a file opened in text mode gives for a content: a carriage return
    is read as a line break, and the line break that follows one is part of
    it.  [after_cr] tells that the character before was a carriage return. *)
Fixpoint translate_newlines (after_cr : bool) (s : string) : string :=
  match s with
  | EmptyString => EmptyString
  | String c s' =>
      if Ascii.eqb c carriage_return
      then String newline (translate_newlines true s')
      else if Ascii.eqb c newline && after_cr
      then translate_newlines false s'
      else String c (translate_newlines false s')
  end.

Definition universal_newlines (s : string) : string := translate_newlines false s.

(** [open(p).read()] *)
Definition read_text (p : string) : M string :=
  s ← open_read p;
  mret (universal_newlines s).

(** [open(p, 'w').write(s)], and binary writes alike *)
Definition write_file (p : string) (f : file) : M unit :=
  fs ← get_files;
  put_files (<[p := f]> fs).

(** [os.remove(p)], when the file may be gone already *)
Definition remove_file (p : string) : M unit :=
  fs ← get_files;
  put_files (delete p fs).

(** The body of a [with] block or of a [try], then what is done on the way
    out whether or not the body raised. *)
Definition finally {A : Type} (body : M A) (exit : M unit) : M A :=
  λ w, let '(r, w1) := body w in (r, (exit w1).2).

(** ** Zip archives *)

(** [zipfile.ZipFile(p)] opened for reading: its entries. *)
Definition open_zip (p : string) : M (list (string * file)) :=
  fs ← get_files;
  match fs !! p with
  | None => raise (FileNotFoundError p)
  | Some (Data _) => raise BadZipFile
  | Some (Zip filelist) => mret filelist
  | Some Directory => raise (OSError ("Permission denied: " +:+ p))
  end.

(** The member name as [ZipFile.extract] uses it: empty, [.] and [..]
    components are dropped. *)
Definition sanitize (name : string) : string :=
  Str.join "/"
    (filter (λ x, x ≠ "" ∧ x ≠ "." ∧ x ≠ "..") (Str.split "/" name)).

(** The directories above a relative path, the outermost first: what stands
    before each separator. *)
Fixpoint ancestors (s : string) : list string :=
  match s with
  | EmptyString => []
  | String c s' =>
      (if Ascii.eqb c "/" then [EmptyString] else [])
      ++ map (String c) (ancestors s')
  end.

(** [os.mkdir(dir)] unless the directory is there: fails when a file is. *)
Definition ensure_directory (dir : string) : M unit :=
  fs ← get_files;
  match fs !! dir with
  | None => put_files (<[dir := Directory]> fs)
  | Some Directory => mret ()
  | Some _ => raise (OSError ("Cannot create a file when that file already exists: " +:+ dir))
  end.

(** [os.makedirs] over the directories of a path, the outermost first. *)
Fixpoint makedirs (dirs : list string) : M unit :=
  match dirs with
  | [] => mret ()
  | dir :: rest => ensure_directory dir;; makedirs rest
  end.

(** The bytes stored with a member that is a file. *)
Definition stored (f : file) : file :=
  match f with
  | Directory => Data ""
  | _ => f
  end.

(** One member of [extractall]: the directories above the target are made;
    a member whose name ends with the separator is a directory and is made
    too; any other member is written, which fails on a directory. *)
Definition extract_member (dest : string) (member : string * file) : M unit :=
  let arcname := sanitize member.1 in
  let targetpath := os_path_join dest arcname in
  makedirs (map (os_path_join dest) (ancestors arcname));;
  if Str.endswith "/" member.1
  then (if String.eqb arcname "" then mret () else ensure_directory targetpath)
  else
    fs ← get_files;
    if String.eqb arcname "" || is_directory fs targetpath
    then raise (OSError ("Permission denied: " +:+ targetpath))
    else put_files (<[targetpath := stored member.2]> fs).

(** [zip.extractall(dest)]: the members in archive order, up to the first
    that fails. *)
Fixpoint extractall (filelist : list (string * file)) (dest : string) : M unit :=
  match filelist with
  | [] => mret ()
  | member :: rest => extract_member dest member;; extractall rest dest
  end.

(** The entry [shutil.make_archive] writes for what lies at the relative
    path [name]: a directory goes in under its name followed by the
    separator. *)
Definition entry_of (name : string) (f : file) : string * file :=
  match f with
  | Directory => (name +:+ "/", Directory)
  | _ => (name, f)
  end.

(** The entries [shutil.make_archive(_, 'zip', root_dir)] writes: every
    file and every directory below [root_dir], named relative to it. *)
Definition archive_entries (root_dir : string) (fs : gmap string file)
    : list (string * file) :=
  omap (λ kv, name ← relative_to root_dir kv.1; Some (entry_of name kv.2))
       (map_to_list fs).

(** [shutil.make_archive(base_name, 'zip', root_dir)] *)
Definition make_archive (base_name root_dir : string) : M string :=
  fs ← get_files;
  write_file (base_name +:+ ".zip") (Zip (archive_entries root_dir fs));;
  mret (base_name +:+ ".zip").

(** ** The functions of [app.py] *)

(** The loop of [get_executable_name] over a directory listing. *)
Definition is_executable (f : string) : bool :=
  Str.endswith ".exe" f && negb (String.eqb f "notification_helper.exe").

Fixpoint first_executable (listing : list string) : option string :=
  match listing with
  | [] => None
  | f :: rest => if is_executable f then Some f else first_executable rest
  end.

(** The title of the entry document, from its text. *)
Definition project_title_of (contents : string) : result string :=
  match re_search_title contents with
  | None => Raise (AttributeError "'NoneType' object has no attribute 'group'")
  | Some title => Ok (unescape_html title)
  end.

(** A value used where [os.path.join] and [str.replace] need a string. *)
Definition as_path (j : json) : result string :=
  match j with
  | JString s => Ok s
  | _ => Raise (TypeError "expected str, bytes or os.PathLike object")
  end.

Definition as_str (j : json) : result string :=
  match j with
  | JString s => Ok s
  | _ => Raise (AttributeError "object has no attribute 'replace'")
  end.

Definition quoted (s : string) : string :=
  String dquote (s +:+ String dquote "").

(** The installer script, line by line. *)
Definition inno_config
    (title package_name executable_file version : string)
    (output_directory output_name icon : string) : string :=
  Str.join (String newline "")
    [ "; Automatically generated by TurboWarp. Avoid changing by hand.";
      "";
      "#define TITLE " +:+ quoted (escape_inno_value title);
      "#define PACKAGE_NAME " +:+ quoted (escape_inno_value package_name);
      "#define EXECUTABLE " +:+ quoted (escape_inno_value executable_file);
      "#define VERSION " +:+ quoted (escape_inno_value version);
      "";
      "[Setup]";
      "AppName={#PACKAGE_NAME}";
      "AppVersion={#VERSION}";
      "WizardStyle=classic";
      "DefaultDirName={autopf}\{#PACKAGE_NAME}";
      "UninstallDisplayIcon={app}\{#EXECUTABLE}";
      "DefaultGroupName={#TITLE}";
      "PrivilegesRequired=lowest";
      "Compression=lzma2";
      "SolidCompression=yes";
      "OutputDir=" +:+ escape_inno_value output_directory;
      "OutputBaseFilename=" +:+ escape_inno_value output_name;
      "SetupIconFile=" +:+ escape_inno_value icon;
      "";
      "[Files]";
      "Source: " +:+ quoted "*" +:+ "; DestDir: " +:+ quoted "{app}"
        +:+ "; Excludes: " +:+ quoted "*.iss"
        +:+ "; Flags: recursesubdirs ignoreversion";
      "";
      "[Icons]";
      "Name: " +:+ quoted "{group}\{#TITLE}"
        +:+ "; Filename: " +:+ quoted "{app}\{#EXECUTABLE}";
      "";
      "[Run]";
      "Filename: " +:+ quoted "{app}\{#EXECUTABLE}"
        +:+ "; Description: " +:+ quoted "Launch application"
        +:+ "; Flags: postinstall nowait skipifsilent";
      "";
      "[UninstallDelete]";
      "Type: filesandordirs; Name: " +:+ quoted "{localappdata}\{#PACKAGE_NAME}";
      "" ].

(** [get_zip_inner_folder_name]: [zip.filelist[0]], then the first field of
    its name split at the separator. *)
Definition get_zip_inner_folder_name (zip : list (string * file)) : result string :=
  match zip with
  | [] => Raise (IndexError "list index out of range")
  | info :: _ =>
      match Str.split "/" info.1 with
      | first :: _ => Ok first
      | [] => Raise (IndexError "list index out of range")
      end
  end.

Record ExtractWorker := {
  ew_filename : string;
  ew_dest : string
}.

Record OptionsWorker := {
  temporary_directory : string;
  extracted_contents : string;
  filename : string;
  should_fix_icon : bool;
  should_create_installer : bool;
  (** set by the constructor only when [should_create_installer] holds, and
      read only then *)
  installer_destination : string
}.

Section Program.

Variable P : platform.

Definition get_executable_name (path : string) : M string :=
  fs ← get_files;
  match listdir P fs path with
  | None => raise (FileNotFoundError path)
  | Some listing =>
      match first_executable listing with
      | Some f => mret f
      | None => raise (Exception "Cannot find executable")
      end
  end.

Definition parse_package_json (path : string) : M json :=
  text ← open_read (os_path_join path "package.json");
  match json_loads P text with
  | Some j => mret j
  | None => raise JSONDecodeError
  end.

(** [run_command(args, check)]: [subprocess.run] raises when the program
    cannot be started, and with [check] when it exits with another code
    than 0. *)
Definition run_command (args : list string) (check : bool) : M Z :=
  fs ← get_files;
  if can_start P args fs
  then
    emit (Spawn args);;
    let '(returncode, fs') := run_process P args fs in
    put_files fs';;
    if check && negb (returncode =? 0)%Z
    then raise (CalledProcessError args returncode)
    else mret returncode
  else raise (FileNotFoundError (hd "" args)).

(** [os.replace(src, dst)] *)
Definition os_replace (src dst : string) : M unit :=
  fs ← get_files;
  match fs !! src with
  | None => raise (FileNotFoundError src)
  | Some f =>
      if can_replace P fs src dst && negb (is_directory fs dst)
      then put_files (<[dst := f]> (delete src fs))
      else raise (OSError ("Cannot replace " +:+ dst))
  end.

Definition get_icon_as_ico (path : string) : M string :=
  package_json ← parse_package_json path;
  has_window ← lift (py_in "window" package_json);
  original_icon_name ←
    (if has_window : bool
     then lift (window ← py_getitem package_json "window";
                py_getitem window "icon")
     else mret (JString "icon.png"));
  name ← lift (as_path original_icon_name);
  let original_icon_full_path := os_path_join path name in
  fs ← get_files;
  match fs !! original_icon_full_path with
  | None => raise (FileNotFoundError original_icon_full_path)
  | Some Directory => raise (OSError ("Permission denied: " +:+ original_icon_full_path))
  | Some (Zip _) => raise (UnidentifiedImageError original_icon_full_path)
  | Some (Data image) =>
      let ico_path := original_icon_full_path +:+ ".ico" in
      match image_to_ico P image with
      | Some ico =>
          write_file ico_path (Data ico);;
          mret ico_path
      | None =>
          match failed_save P image with
          | None => raise (UnidentifiedImageError original_icon_full_path)
          | Some (Some partial) =>
              write_file ico_path (Data partial);;
              raise (OSError "cannot write image as ICO")
          | Some None =>
              remove_file ico_path;;
              raise (OSError "cannot write image as ICO")
          end
      end
  end.

Definition fix_icon (path : string) : M unit :=
  name ← get_executable_name path;
  let executable_file := os_path_join path name in
  icon ← get_icon_as_ico path;
  run_command
    [ os_path_join (app_dir P) "third-party/rcedit/rcedit-x86.exe";
      executable_file; "--set-icon"; icon ] true;;
  mret ().

Definition get_project_title (path : string) : M string :=
  contents ← read_text (os_path_join path "index.html");
  lift (project_title_of contents).

(** [create_installer].  The manifest name is only formatted into strings
    until the script is rendered, where [escape_inno_value] needs a [str]:
    [as_str] stands at that point. *)
Definition create_installer (path : string) : M string :=
  executable_file ← get_executable_name path;
  package_json ← parse_package_json path;
  package_name_value ← lift (py_getitem package_json "name");
  title ← get_project_title path;
  let version := "1.0.0" in
  let output_directory := "Generated Installer" in
  icon ← get_icon_as_ico path;
  package_name ← lift (as_str package_name_value);
  let output_name := package_name +:+ " Setup" in
  let inno_config_path := os_path_join path "config.iss" in
  write_file inno_config_path
    (Data (inno_config title package_name executable_file version
             output_directory output_name icon));;
  run_command
    [ os_path_join (app_dir P) "third-party/inno/iscc.exe"; inno_config_path ]
    true;;
  let expected_output_file :=
    os_path_join (os_path_join path output_directory) (output_name +:+ ".exe") in
  found ← os_path_exists expected_output_file;
  if found : bool
  then mret expected_output_file
  else raise (Exception "Did not output to expected spot").

Definition verify_folder (folder : string) : M bool :=
  os_path_exists (os_path_join folder "resources.pak").

(** [ExtractWorker._run]; the value returned is the argument of the
    [extracted] signal. *)
Definition ExtractWorker_run (self : ExtractWorker) : M string :=
  zip ← open_zip (ew_filename self);
  extractall zip (ew_dest self);;
  name ← lift (get_zip_inner_folder_name zip);
  let extracted_contents := os_path_join (ew_dest self) name in
  valid ← verify_folder extracted_contents;
  if valid : bool
  then emit (Extracted extracted_contents);; mret extracted_contents
  else raise (Exception "Invalid zip selected").

Definition update_progress (text : string) : M unit :=
  emit (ProgressUpdate text).

(** [OptionsWorker.rezip]: the named temporary file lives for the body of
    the [with] block, and is removed when the block is left, also by an
    exception. *)
Definition rezip (self : OptionsWorker) : M unit :=
  update_progress "Recompressing (slow!)";;
  fs ← get_files;
  let temporary_archive := temp_name P fs in
  write_file temporary_archive (Data "");;
  finally
    (generated_archive_name ←
       make_archive temporary_archive (temporary_directory self);
     os_replace generated_archive_name (filename self))
    (remove_file temporary_archive).

Definition OptionsWorker_run (self : OptionsWorker) : M unit :=
  (if should_fix_icon self
   then update_progress "Fixing icon";;
        fix_icon (extracted_contents self);;
        rezip self
   else mret ());;
  (if should_create_installer self
   then update_progress "Creating installer (very slow!!)";;
        generated_installer_path ← create_installer (extracted_contents self);
        os_replace generated_installer_path (installer_destination self)
   else mret ());;
  emit Success.

End Program.

(** ** The project widget and its worker threads *)

(** The state of a [ProjectOptionsWidget] that the handlers read and write.
    [controls] is the visibility of the two checkboxes and the two buttons;
    it is [None] until [finished_extract] creates them, which is what the
    [hasattr] tests of [set_enable_controls] look at. *)
Record ProjectOptionsWidget := Widget {
  w_filename : string;
  w_temporary_directory : string;
  w_extracted_contents : option string;
  controls : option bool;
  progress_widget : bool;
  file_to_reveal : option string
}.

Definition log (ev : event) (w : world) : world :=
  World (files w) (events w ++ [ev]).

(** [TemporaryDirectory.cleanup()]: everything below the directory goes. *)
Definition TemporaryDirectory_cleanup (name : string) (w : world) : world :=
  World (filter (λ kv, below name kv.1 = false) (files w)) (events w).

Definition set_enable_controls (enabled : bool) (self : ProjectOptionsWidget)
    : ProjectOptionsWidget :=
  Widget (w_filename self) (w_temporary_directory self)
    (w_extracted_contents self)
    (match controls self with Some _ => Some enabled | None => None end)
    (progress_widget self) (file_to_reveal self).

Definition cleanup (self : ProjectOptionsWidget) (w : world)
    : ProjectOptionsWidget * world :=
  let w := log ProcessEnded w in
  let self :=
    Widget (w_filename self) (w_temporary_directory self)
      (w_extracted_contents self) (controls self) false (file_to_reveal self) in
  (set_enable_controls true self, w).

Definition remove (self : ProjectOptionsWidget) (w : world)
    : ProjectOptionsWidget * world :=
  (self, log RemoveMe (TemporaryDirectory_cleanup (w_temporary_directory self) w)).

Definition display_error (err : string) (w : world) : world :=
  log (ErrorDialog err) w.

Definition display_success (message : string) (w : world) : world :=
  log (SuccessDialog message) w.

Definition worker_error (err : string) (self : ProjectOptionsWidget) (w : world)
    : ProjectOptionsWidget * world :=
  cleanup self (display_error err w).

Definition extract_worker_error (err : string) (self : ProjectOptionsWidget)
    (w : world) : ProjectOptionsWidget * world :=
  let '(self, w) := worker_error err self w in
  remove self w.

Definition finished_extract (extracted : string) (self : ProjectOptionsWidget)
    (w : world) : ProjectOptionsWidget * world :=
  (Widget (w_filename self) (w_temporary_directory self) (Some extracted)
     (Some true) (progress_widget self) (file_to_reveal self),
   log ProcessEnded w).

Section Widget.

Variable P : platform.

Definition reveal_in_explorer (path : string) : M unit :=
  run_command P ["explorer.exe"; "/select,"; Str.replace "/" "\" path] false;;
  mret ().

(** [worker_finished], a slot: when [reveal_in_explorer] raises, the
    exception leaves the slot and the two calls after it are not made. *)
Definition worker_finished (self : ProjectOptionsWidget) (w : world)
    : ProjectOptionsWidget * world :=
  let w := display_success "Success" w in
  let revealed :=
    match file_to_reveal self with
    | Some path => if String.eqb path "" then (Ok (), w) else reveal_in_explorer path w
    | None => (Ok (), w)
    end in
  match revealed with
  | (Ok _, w) => let '(self, w) := cleanup self w in remove self w
  | (Raise _, w) => (self, w)
  end.

(** [BaseThread.run] of an [ExtractWorker] with its signals connected as in
    [ProjectOptionsWidget.__init__]. *)
Definition run_extract_worker (self : ProjectOptionsWidget) (w : world)
    : ProjectOptionsWidget * world :=
  match ExtractWorker_run
          {| ew_filename := w_filename self;
             ew_dest := w_temporary_directory self |} w with
  | (Ok extracted, w') => finished_extract extracted self w'
  | (Raise e, w') =>
      extract_worker_error (exn_str e) self (log (Error (exn_str e)) w')
  end.

(** [BaseThread.run] of an [OptionsWorker] with its signals connected as in
    [ProjectOptionsWidget.click]. *)
Definition run_options_worker (worker : OptionsWorker)
    (self : ProjectOptionsWidget) (w : world) : ProjectOptionsWidget * world :=
  match OptionsWorker_run P worker w with
  | (Ok _, w') => worker_finished self w'
  | (Raise e, w') => worker_error (exn_str e) self (log (Error (exn_str e)) w')
  end.

(** [ProjectOptionsWidget.click], for the state of the two checkboxes and
    the answer of the save dialog (empty when dismissed).  The button exists
    only once the extraction has finished. *)
Definition click (fix_icon_checked create_installer_checked : bool)
    (chosen : string) (self : ProjectOptionsWidget) (w : world)
    : ProjectOptionsWidget * world :=
  match w_extracted_contents self with
  | None => (self, w)
  | Some extracted =>
      let w := log ProcessStarted w in
      if negb fix_icon_checked && negb create_installer_checked
      then let '(self, w) := cleanup self w in
           (self, display_error "You have to check at least one of the boxes" w)
      else
        let self := set_enable_controls false self in
        if create_installer_checked && String.eqb chosen ""
        then let '(self, w) :=
               cleanup (Widget (w_filename self) (w_temporary_directory self)
                          (w_extracted_contents self) (controls self)
                          (progress_widget self) None) w in
             (self, display_error "No file selected" w)
        else
          let worker :=
            {| temporary_directory := w_temporary_directory self;
               extracted_contents := extracted;
               filename := w_filename self;
               should_fix_icon := fix_icon_checked;
               should_create_installer := create_installer_checked;
               installer_destination := chosen |} in
          run_options_worker worker
            (Widget (w_filename self) (w_temporary_directory self)
               (w_extracted_contents self) (controls self) true
               (if create_installer_checked then Some chosen else None))
            w
  end.

(** [ProjectOptionsWidget.__init__] for a temporary directory just made. *)
Definition open_project (file_name temp_dir : string) (w : world)
    : ProjectOptionsWidget * world :=
  run_extract_worker (Widget file_name temp_dir None None false None) w.

End Widget.

(** ** A concrete platform and package

    The package of the end-to-end scenarios of the specification, and a
    platform whose tools do what their contracts say. *)

(** A directory listing read off the file map. *)
Definition children (fs : gmap string file) (dir : string) : option (list string) :=
  let names :=
    omap (λ kv, rel ← relative_to dir kv.1;
                match Str.split "/" rel with
                | first :: _ => Some first
                | [] => None
                end)
         (map_to_list fs) in
  match names with
  | [] => None
  | _ => Some (remove_dups names)
  end.

Module Demo.

Definition manifest_text : string := "{name: demo}".

Definition html : string :=
  "<html><head><title>Demo &amp; App</title></head></html>".

Definition archive : list (string * file) :=
  [ ("root/app.exe", Data "MZ");
    ("root/resources.pak", Data "pak");
    ("root/icon.png", Data "PNG");
    ("root/package.json", Data manifest_text);
    ("root/index.html", Data html) ].

(** The icon tool patches the executable it is given; the installer compiler
    writes its output next to the script, where the script tells it to. *)
Definition tool (args : list string) (fs : gmap string file)
    : Z * gmap string file :=
  match args with
  | [_; exe; "--set-icon"; icon] => (0%Z, <[exe := Data ("MZ+" +:+ icon)]> fs)
  | [_; script] =>
      (0%Z,
       <[Str.replace "config.iss" "Generated Installer/demo Setup.exe" script
           := Data "SETUP"]> fs)
  | _ => (1%Z, fs)
  end.

(** The platform on which the manifest text parses to [manifest]. *)
Definition platform_of (manifest : json) : platform :=
  {| app_dir := "C:/app";
     listdir := children;
     json_loads := λ s, if String.eqb s manifest_text then Some manifest else None;
     image_to_ico := λ s, Some ("ICO:" +:+ s);
     run_process := tool;
     temp_name := λ _, "C:/tmp/tmpa";
     can_start := λ _ _, true;
     can_replace := λ _ _ _, true;
     failed_save := λ _, None |}.

Definition manifest : json := JObject [("name", JString "demo")].

(** A manifest with a window block that names an icon, and one whose window
    block names none. *)
Definition manifest_with_icon : json :=
  JObject [("name", JString "demo");
           ("window", JObject [("icon", JString "logo.png")])].

Definition manifest_without_icon : json :=
  JObject [("name", JString "demo");
           ("window", JObject [("width", JNumber 480)])].

Definition platform : platform := platform_of manifest.

(** The archive as the user selects it, and after extraction. *)
Definition selected : world := World {[ "C:/dl/demo.zip" := Zip archive ]} [].

Definition extract_worker : ExtractWorker :=
  {| ew_filename := "C:/dl/demo.zip"; ew_dest := "C:/tmp/run" |}.

Definition extracted : world := (ExtractWorker_run extract_worker selected).2.

Definition options_worker (fix_icon_checked create_installer_checked : bool)
    (destination : string) : OptionsWorker :=
  {| temporary_directory := "C:/tmp/run";
     extracted_contents := "C:/tmp/run/root";
     filename := "C:/dl/demo.zip";
     should_fix_icon := fix_icon_checked;
     should_create_installer := create_installer_checked;
     installer_destination := destination |}.

(** The extracted tree with a second image next to the default icon. *)
Definition extracted_with_logo : world :=
  World (<["C:/tmp/run/root/logo.png" := Data "LOGO"]> (files extracted))
        (events extracted).

(** The extracted tree with an entry document that has no title. *)
Definition extracted_untitled : world :=
  World (<["C:/tmp/run/root/index.html" := Data "<html></html>"]> (files extracted))
        (events extracted).

(** An archive that lacks the marker file. *)
Definition selected_without_marker : world :=
  World {[ "C:/dl/demo.zip" := Zip [("root/app.exe", Data "MZ")] ]} [].

(** The widget while it extracts, and once the options are on screen. *)
Definition extracting_widget : ProjectOptionsWidget :=
  Widget "C:/dl/demo.zip" "C:/tmp/run" None None false None.

Definition ready_widget : ProjectOptionsWidget :=
  Widget "C:/dl/demo.zip" "C:/tmp/run" (Some "C:/tmp/run/root") (Some false)
    true (Some "C:/dl/demo Setup.exe").

End Demo.

(** ** Predicates and auxiliary definitions of the statements *)

(** [s] ends with [suffix]. *)
Definition has_suffix (suffix s : string) : Prop := ∃ stem, s = stem +:+ suffix.

(** A directory entry the executable locator accepts. *)
Definition qualifies (f : string) : Prop :=
  has_suffix ".exe" f ∧ f ≠ "notification_helper.exe".

(** The entity that [escape_html] writes for one character. *)
Definition html_entity (c : ascii) : string :=
  if Ascii.eqb c "&" then "&amp;"
  else if Ascii.eqb c ">" then "&gt;"
  else if Ascii.eqb c "<" then "&lt;"
  else if Ascii.eqb c "'" then "&apos;"
  else if Ascii.eqb c dquote then "&quot;"
  else String c "".

(** The five replacements of [unescape_html], innermost first. *)
Definition unescape_steps : list (string * string) :=
  [("&quot;", String dquote ""); ("&apos;", "'"); ("&lt;", "<");
   ("&gt;", ">"); ("&amp;", "&")].

Definition unescape_upto (n : nat) (s : string) : string :=
  foldl (λ acc '(old, new), Str.replace_from old new 0 acc) s
        (take n unescape_steps).

(** What [escape_inno_value] writes for one character. *)
Definition inno_char (c : ascii) : string :=
  if Ascii.eqb c "{" then "{{"
  else if Ascii.eqb c dquote then ""
  else String c "".

(** The text of [s] up to its first line break. *)
Definition first_line (s : string) : string := (Str.split_first newline s).1.

(** How the icon extractor is meant to choose the source image: the default
    name without a window block, the icon entry of the block otherwise. *)
Inductive icon_name_of (fields : list (string * json)) : string → Prop :=
| icon_default :
    dict_get "window" fields = None → icon_name_of fields "icon.png"
| icon_override window name :
    dict_get "window" fields = Some (JObject window) →
    dict_get "icon" window = Some (JString name) →
    icon_name_of fields name.

(** The leading segment of a member name. *)
Definition leading_segment (name : string) : string :=
  (Str.split_first "/" name).1.

(** The steps of [create_installer] up to and including the run of the
    compiler; the value is the package name. *)
Definition invoke_compiler (P : platform) (path : string) : M string :=
  executable_file ← get_executable_name P path;
  package_json ← parse_package_json P path;
  package_name_value ← lift (py_getitem package_json "name");
  title ← get_project_title path;
  icon ← get_icon_as_ico P path;
  package_name ← lift (as_str package_name_value);
  write_file (os_path_join path "config.iss")
    (Data (inno_config title package_name executable_file "1.0.0"
             "Generated Installer" (package_name +:+ " Setup") icon));;
  run_command P
    [ os_path_join (app_dir P) "third-party/inno/iscc.exe";
      os_path_join path "config.iss" ] true;;
  mret package_name.

(** Where [create_installer] expects the compiled installer. *)
Definition expected_output_file (path package_name : string) : string :=
  os_path_join (os_path_join path "Generated Installer")
    ((package_name +:+ " Setup") +:+ ".exe").

(** A computation respects a relation between the world before and after
    it, whatever it returns or raises. *)
Definition respects (R : world → world → Prop) {A : Type} (m : M A) : Prop :=
  ∀ w, R w (m w).2.

(** The file at [q] is what it was. *)
Definition keeps (q : string) (w w' : world) : Prop :=
  files w' !! q = files w !! q.

(** Nothing was emitted. *)
Definition silent (w w' : world) : Prop := events w' = events w.

(** What a complete run of the options worker emits, for the executable
    and the icon the icon step works on. *)
Definition expected_trace (P : platform) (self : OptionsWorker)
    (exe ico : string) : list event :=
  (if should_fix_icon self
   then [ ProgressUpdate "Fixing icon";
          Spawn [ os_path_join (app_dir P) "third-party/rcedit/rcedit-x86.exe";
                  exe; "--set-icon"; ico ];
          ProgressUpdate "Recompressing (slow!)" ]
   else [])
  ++ (if should_create_installer self
      then [ ProgressUpdate "Creating installer (very slow!!)";
             Spawn [ os_path_join (app_dir P) "third-party/inno/iscc.exe";
                     os_path_join (extracted_contents self) "config.iss" ] ]
      else [])
  ++ [Success].

(** A relative path as a real directory has them: not empty, with no
    empty, [.] or [..] component, and no separator at either end. *)
Definition clean_name (name : string) : bool :=
  String.eqb (sanitize name) name
  && negb (String.eqb name "")
  && negb (Str.startswith "/" name)
  && negb (Str.endswith "/" name).

(** The part of the map below [dir] is a directory tree: every entry has a
    clean relative name, and what stands above it, up to [dir], are
    directories of the map. *)
Definition tree_ok (dir : string) (fs : gmap string file) : bool :=
  forallb (λ kv, match relative_to dir kv.1 with
                 | Some name =>
                     clean_name name
                     && forallb (λ above,
                                   match fs !! (dir +:+ "/" +:+ above) with
                                   | Some Directory => true
                                   | _ => false
                                   end)
                                (ancestors name)
                 | None => true
                 end)
          (map_to_list fs).

(** What [OptionsWorker._run] does once its icon block is behind it: the
    installer block, when selected, and the [success] signal. *)
Definition finish_run (P : platform) (self : OptionsWorker) : M unit :=
  (if should_create_installer self
   then update_progress "Creating installer (very slow!!)";;
        generated_installer_path ← create_installer P (extracted_contents self);
        os_replace P generated_installer_path (installer_destination self)
   else mret ());;
  emit Success.

(** Nothing in the installer block is pointed at the archive: the archive
    is a [.zip] file, the installer is saved under a path that is another
    one also when the two are normalized, and the compiler leaves the
    archive alone. *)
Definition archive_out_of_reach (P : platform) (self : OptionsWorker) : Prop :=
  has_suffix ".zip" (filename self)
  ∧ normpath (installer_destination self) ≠ normpath (filename self)
  ∧ ∀ fs, (run_process P
             [ os_path_join (app_dir P) "third-party/inno/iscc.exe";
               os_path_join (extracted_contents self) "config.iss" ] fs).2
          !! filename self = fs !! filename self.

(** The archive has exactly the entries of the tree below [dir]. *)
Definition archive_of (dir : string) (fs : gmap string file)
    (zip : list (string * file)) : Prop :=
  ∀ entry, entry ∈ zip
           ↔ ∃ rel f, fs !! (dir +:+ "/" +:+ rel) = Some f ∧ entry = entry_of rel f.

(** What the map [m] holds below [dest] is what [fs] holds at the same
    relative path below [dir]. *)
Definition mirrors (dir dest : string) (fs m : gmap string file) : Prop :=
  ∀ rel g, m !! (dest +:+ "/" +:+ rel) = Some g → fs !! (dir +:+ "/" +:+ rel) = Some g.

(** A directory path to which a relative name is joined with a separator. *)
Definition plain_dir (dir : string) : bool :=
  negb (String.eqb dir "") && negb (Str.endswith "/" dir).

(** ** Tactics *)

(** Settle a goal about one character by going through the 256 of them. *)
Ltac each_char c :=
  destruct c as [[] [] [] [] [] [] [] []]; vm_compute; reflexivity.

(** Case analysis on the next call of a monadic computation. *)
Ltac next_call :=
  match goal with
  | |- context [match ?t with _ => _ end] =>
      lazymatch t with
      | get_executable_name _ _ _ => destruct t as [[?|?] ?]
      | parse_package_json _ _ _ => destruct t as [[?|?] ?]
      | get_project_title _ _ => destruct t as [[?|?] ?]
      | get_icon_as_ico _ _ _ => destruct t as [[?|?] ?]
      | write_file _ _ _ => destruct t as [[?|?] ?]
      | run_command _ _ _ _ => destruct t as [[?|?] ?]
      | os_path_exists _ _ => destruct t as [[?|?] ?]
      | os_replace _ _ _ _ => destruct t as [[?|?] ?]
      | fix_icon _ _ _ => destruct t as [[?|?] ?]
      | rezip _ _ _ => destruct t as [[?|?] ?]
      | create_installer _ _ _ => destruct t as [[?|?] ?]
      | py_getitem _ _ => destruct t
      | as_str _ => destruct t
      end
  end; cbn [lift].

(** ** The main window

    The part of [MainWindow] that decides which project is open.  The
    project widget reaches the window through three signals, connected in
    [on_file_selected]; [deliver] is that wiring. *)

Record MainWindow := Window {
  configure_widget : option ProjectOptionsWidget;
  is_process_ongoing : bool;
  (** whether the select button is in the layout *)
  select_widget_shown : bool
}.

Definition on_process_started (self : MainWindow) : MainWindow :=
  Window (configure_widget self) true (select_widget_shown self).

Definition on_process_ended (self : MainWindow) : MainWindow :=
  Window (configure_widget self) false (select_widget_shown self).

(** [on_project_done] calls a method of [self.configure_widget] first. *)
Definition on_project_done (self : MainWindow) : result MainWindow :=
  match configure_widget self with
  | None => Raise (AttributeError "'NoneType' object has no attribute 'setParent'")
  | Some _ => Ok (Window None (is_process_ongoing self) true)
  end.

Definition deliver (self : MainWindow) (ev : event) : result MainWindow :=
  match ev with
  | ProcessStarted => Ok (on_process_started self)
  | ProcessEnded => Ok (on_process_ended self)
  | RemoveMe => on_project_done self
  | _ => Ok self
  end.

(** The signals of a list, in the order they were emitted. *)
Fixpoint deliver_all (self : MainWindow) (evs : list event) : result MainWindow :=
  match evs with
  | [] => Ok self
  | ev :: rest => self' ← deliver self ev; deliver_all self' rest
  end.

(** [on_file_selected], for the temporary directory the new widget makes.
    The widget only starts its extract worker; the worker reports later. *)
Definition on_file_selected (file temp_dir : string) (self : MainWindow) (w : world)
    : MainWindow * world :=
  match configure_widget self with
  | Some _ => (self, log (ErrorDialog "Already have a file open") w)
  | None =>
      (Window (Some (Widget file temp_dir None None false None)) true false, w)
  end.

Definition dropEvent (file temp_dir : string) (self : MainWindow) (w : world)
    : MainWindow * world :=
  if is_process_ongoing self then (self, w)
  else on_file_selected file temp_dir self w.

(** The extract worker of the open project reports: its slot runs on the
    widget the window holds, and the signals the slot emits reach the window. *)
Definition extract_worker_reports (self : MainWindow) (w : world)
    : result MainWindow * world :=
  match configure_widget self with
  | None => (Ok self, w)
  | Some widget =>
      let '(widget', w') := run_extract_worker widget w in
      (deliver_all
         (Window (Some widget') (is_process_ongoing self) (select_widget_shown self))
         (drop (length (events w)) (events w')),
       w')
  end.

(** What the user does with files at the main window. *)
Inductive file_action :=
| Select (file temp_dir : string)
| Drop (file temp_dir : string).

Definition file_action_step (st : MainWindow * world) (a : file_action)
    : MainWindow * world :=
  match a with
  | Select file temp_dir => on_file_selected file temp_dir st.1 st.2
  | Drop file temp_dir => dropEvent file temp_dir st.1 st.2
  end.

(** ** Further scenarios *)

Module Scenario.

(** An extracted tree whose only [.exe] is the helper binary. *)
Definition without_executable : world :=
  World {[ "C:/tmp/run/root/notification_helper.exe" := Data "MZ";
           "C:/tmp/run/root/resources.pak" := Data "pak" ]} [].

(** A platform whose external programs exit with 0 and write nothing. *)
Definition quiet_platform : platform :=
  {| app_dir := "C:/app";
     listdir := children;
     json_loads := json_loads Demo.platform;
     image_to_ico := image_to_ico Demo.platform;
     run_process := λ _ fs, (0%Z, fs);
     temp_name := temp_name Demo.platform;
     can_start := λ _ _, true;
     can_replace := λ _ _ _, true;
     failed_save := λ _, None |}.

(** The main window before any file is selected. *)
Definition idle : MainWindow := Window None false true.

End Scenario.

(** * Properties *)

(** ** Sanity checks of the string primitives *)

Example replace_no_overlap : Str.replace "aa" "b" "aaa" = "ba".
Proof. reflexivity. Qed.

Example replace_empty_pattern : Str.replace "" "-" "ab" = "-a-b-".
Proof. reflexivity. Qed.

Example escape_html_sample :
  escape_html "a<b & 'c'" = "a&lt;b &amp; &apos;c&apos;".
Proof. reflexivity. Qed.

Example unescape_html_sample : unescape_html "&amp;lt; &lt;" = "&lt; <".
Proof. reflexivity. Qed.

Example escape_inno_sample :
  escape_inno_value ("{app}" +:+ String dquote "x") = "{{app}x".
Proof. reflexivity. Qed.

(** ** Algebra of the string primitives *)

Section StrFacts.

Lemma str_app_nil_r (s : string) : s +:+ "" = s.
Proof. induction s as [|c s IH]; [done|]. unfold String.app in *. simpl. by rewrite IH. Qed.

Lemma str_app_cons (c : ascii) (s t : string) : String c s +:+ t = String c (s +:+ t).
Proof. done. Qed.

Lemma str_app_assoc (s t u : string) : (s +:+ t) +:+ u = s +:+ t +:+ u.
Proof. induction s as [|c s IH]; [done|]. rewrite !str_app_cons. by rewrite IH. Qed.

Lemma flat_map_app f (s t : string) :
  Str.flat_map f (s +:+ t) = Str.flat_map f s +:+ Str.flat_map f t.
Proof.
  induction s as [|c s IH]; [done|].
  rewrite str_app_cons. simpl. by rewrite IH, str_app_assoc.
Qed.

Lemma flat_map_ext f g (s : string) :
  (∀ c, f c = g c) → Str.flat_map f s = Str.flat_map g s.
Proof. intros E. induction s as [|c s IH]; [done|]. simpl. by rewrite E, IH. Qed.

Lemma flat_map_fuse f g (s : string) :
  Str.flat_map g (Str.flat_map f s) = Str.flat_map (λ c, Str.flat_map g (f c)) s.
Proof.
  induction s as [|c s IH]; [done|]. simpl. by rewrite flat_map_app, IH.
Qed.

Lemma flat_map_id (s : string) : Str.flat_map (λ c, String c "") s = s.
Proof. induction s as [|c s IH]; [done|]. simpl. by rewrite IH. Qed.

Lemma count_app c (s t : string) : Str.count c (s +:+ t) = Str.count c s + Str.count c t.
Proof. induction s as [|d s IH]; [done|]. rewrite str_app_cons. simpl. rewrite IH. lia. Qed.

(** Replacing a one-character pattern maps every character on its own. *)
Lemma replace_char (o : ascii) (new s : string) :
  Str.replace (String o "") new s
  = Str.flat_map (λ c, if Ascii.eqb o c then new else String c "") s.
Proof.
  unfold Str.replace. induction s as [|c s IH]; [done|].
  simpl. destruct (Ascii.eqb o c); simpl; by rewrite IH.
Qed.

(** A multi-character pattern can be replaced code word by code word when
    the scan never has to look across the end of a code word. *)
Lemma replace_flat_map (old new : string) (e : ascii → string) (s : string) :
  (∀ c rest,
      Str.replace_from old new 0 (e c +:+ rest)
      = Str.replace_from old new 0 (e c) +:+ Str.replace_from old new 0 rest) →
  Str.replace_from old new 0 (Str.flat_map e s)
  = Str.flat_map (λ c, Str.replace_from old new 0 (e c)) s.
Proof.
  intros H. induction s as [|c s IH]; [done|]. simpl. by rewrite H, IH.
Qed.

End StrFacts.

(** ** HTML escaping *)

Lemma escape_html_flat_map (s : string) :
  escape_html s = Str.flat_map html_entity s.
Proof.
  unfold escape_html. rewrite !replace_char, !flat_map_fuse.
  apply flat_map_ext. intros c. each_char c.
Qed.

Lemma unescape_html_steps (s : string) : unescape_html s = unescape_upto 5 s.
Proof. reflexivity. Qed.

Lemma unescape_upto_S n old new (s : string) :
  unescape_steps !! n = Some (old, new) →
  unescape_upto (S n) s = Str.replace_from old new 0 (unescape_upto n s).
Proof.
  intros H. unfold unescape_upto.
  rewrite (take_S_r _ _ _ H), foldl_app. done.
Qed.

(** After [n] replacements the text is still a concatenation of code words,
    one per source character. *)
Lemma unescape_upto_entities n (s : string) :
  n ≤ 5 →
  unescape_upto n (Str.flat_map html_entity s)
  = Str.flat_map (λ c, unescape_upto n (html_entity c)) s.
Proof.
  intros Hn.
  assert (∀ k old new, unescape_steps !! k = Some (old, new) →
            ∀ c rest,
              Str.replace_from old new 0 (unescape_upto k (html_entity c) +:+ rest)
              = Str.replace_from old new 0 (unescape_upto k (html_entity c))
                +:+ Str.replace_from old new 0 rest) as Hword.
  { intros k old new Hk c rest.
    do 5 (destruct k as [|k]; [injection Hk as <- <-; each_char c|]).
    done. }
  induction n as [|n IH]; [done|].
  destruct (unescape_steps !! n) as [[old new]|] eqn:Hk.
  - rewrite (unescape_upto_S _ _ _ _ Hk), IH by lia.
    rewrite replace_flat_map by (apply (Hword n), Hk).
    apply flat_map_ext. intros c. by rewrite (unescape_upto_S _ _ _ _ Hk).
  - apply lookup_ge_None in Hk. simpl in Hk. lia.
Qed.

(** C10: [unescape_html (escape_html s) = s] for every string [s]. *)
Theorem unescape_escape_html (s : string) : unescape_html (escape_html s) = s.
Proof.
  rewrite escape_html_flat_map, unescape_html_steps, unescape_upto_entities by lia.
  rewrite <- (flat_map_id s) at 2.
  apply flat_map_ext. intros c. each_char c.
Qed.

(** ** The installer-script escaping *)

Lemma escape_inno_value_flat_map (s : string) :
  escape_inno_value s = Str.flat_map inno_char s.
Proof.
  unfold escape_inno_value. rewrite !replace_char, flat_map_fuse.
  apply flat_map_ext. intros c. each_char c.
Qed.

Lemma escape_inno_value_app (s t : string) :
  escape_inno_value (s +:+ t) = escape_inno_value s +:+ escape_inno_value t.
Proof. rewrite !escape_inno_value_flat_map. apply flat_map_app. Qed.

Lemma count_flat_map_inno (c : ascii) (k : nat) (s : string) :
  (∀ d, Str.count c (inno_char d) = k * Str.count c (String d "")) →
  Str.count c (Str.flat_map inno_char s) = k * Str.count c s.
Proof.
  intros H. induction s as [|d s IH]; simpl; [lia|].
  rewrite count_app, IH, H. simpl. lia.
Qed.

(** C6: for every string, the empty one included, the output of
    [escape_inno_value] holds no double quote, and every brace of the input
    stands doubled in the output: the braces of the output are twice those of
    the input, and an input [s1 { s2] gives the output of [s1], two braces,
    then the output of [s2]. *)
Theorem escape_inno_value_no_quote_braces_doubled (s1 s2 : string) :
  Str.count dquote (escape_inno_value s1) = 0
  ∧ Str.count "{" (escape_inno_value s1) = 2 * Str.count "{" s1
  ∧ escape_inno_value (s1 +:+ String "{" s2)
    = escape_inno_value s1 +:+ "{{" +:+ escape_inno_value s2.
Proof.
  split; [|split].
  - rewrite escape_inno_value_flat_map.
    rewrite (count_flat_map_inno dquote 0); [done|]. intros d. each_char d.
  - rewrite escape_inno_value_flat_map.
    apply count_flat_map_inno. intros d. each_char d.
  - rewrite escape_inno_value_app. reflexivity.
Qed.

Example escape_inno_value_empty : escape_inno_value "" = "".
Proof. reflexivity. Qed.

(** ** The executable locator *)

Lemma str_length_app (s t : string) :
  String.length (s +:+ t) = String.length s + String.length t.
Proof. induction s as [|c s IH]; [done|]. rewrite str_app_cons. simpl. by rewrite IH. Qed.

Lemma drop_app_length (s t : string) : Str.drop (String.length s) (s +:+ t) = t.
Proof. induction s as [|c s IH]; [by destruct t|]. by rewrite str_app_cons. Qed.

Lemma drop_suffix (n : nat) (s : string) : ∃ t, s = t +:+ Str.drop n s.
Proof.
  revert s. induction n as [|n IH]; intros s.
  - by exists "".
  - destruct s as [|c s]; [by exists ""|].
    destruct (IH s) as [t Ht]. exists (String c t).
    rewrite str_app_cons. simpl. by rewrite <- Ht.
Qed.

Lemma endswith_spec (p s : string) : Str.endswith p s = true ↔ has_suffix p s.
Proof.
  unfold Str.endswith, has_suffix. rewrite andb_true_iff, Nat.leb_le, String.eqb_eq.
  split.
  - intros [_ E]. destruct (drop_suffix (String.length s - String.length p) s) as [t Ht].
    exists t. by rewrite <- E.
  - intros [t ->]. rewrite str_length_app. split; [lia|].
    replace (String.length t + String.length p - String.length p)
      with (String.length t) by lia.
    apply drop_app_length.
Qed.

Lemma is_executable_spec (f : string) : is_executable f = true ↔ qualifies f.
Proof.
  unfold is_executable, qualifies.
  rewrite andb_true_iff, endswith_spec, negb_true_iff, String.eqb_neq. done.
Qed.

Lemma first_executable_Some (listing : list string) (f : string) :
  first_executable listing = Some f
  ↔ ∃ before after,
      listing = before ++ f :: after
      ∧ qualifies f ∧ Forall (λ g, ¬ qualifies g) before.
Proof.
  induction listing as [|g rest IH]; simpl.
  - split; [done|]. intros (before & after & E & _). by destruct before.
  - destruct (is_executable g) eqn:Hg.
    + apply is_executable_spec in Hg. split.
      * intros [= ->]. exists [], rest. split_and!; [done|done|constructor].
      * intros (before & after & E & Hf & Hb).
        destruct before as [|b before]; simplify_eq/=; [done|].
        by inversion_clear Hb.
    + assert (¬ qualifies g) as Hn.
      { rewrite <- is_executable_spec. by rewrite Hg. }
      rewrite IH. split.
      * intros (before & after & -> & Hf & Hb).
        exists (g :: before), after. split_and!; [done|done|by constructor].
      * intros (before & after & E & Hf & Hb).
        destruct before as [|b before]; simplify_eq/=; [done|].
        exists before, after. inversion_clear Hb. done.
Qed.

Lemma first_executable_None (listing : list string) :
  first_executable listing = None ↔ Forall (λ g, ¬ qualifies g) listing.
Proof.
  induction listing as [|g rest IH]; simpl; [by split|].
  destruct (is_executable g) eqn:Hg.
  - apply is_executable_spec in Hg. split; [done|]. by inversion_clear 1.
  - rewrite IH. split.
    + intros H. constructor; [|done]. rewrite <- is_executable_spec. by rewrite Hg.
    + by inversion_clear 1.
Qed.

(** C4: over any directory listing, [get_executable_name] returns the first
    entry that ends with [.exe] and is not [notification_helper.exe]; it
    raises [Exception('Cannot find executable')] (ExecutableNotFound) exactly
    when no entry qualifies, as when the helper binary is the only entry with
    the suffix.  The file system is left as it was. *)
Theorem get_executable_name_first_match
    (P : platform) (w : world) (path : string) (listing : list string) :
  listdir P (files w) path = Some listing →
  (∀ f, get_executable_name P path w = (Ok f, w)
        ↔ ∃ before after,
            listing = before ++ f :: after
            ∧ qualifies f ∧ Forall (λ g, ¬ qualifies g) before)
  ∧ (get_executable_name P path w
       = (Raise (Exception "Cannot find executable"), w)
     ↔ Forall (λ g, ¬ qualifies g) listing)
  ∧ (Forall (λ g, has_suffix ".exe" g → g = "notification_helper.exe") listing →
     get_executable_name P path w
       = (Raise (Exception "Cannot find executable"), w)).
Proof.
  intros Hl.
  assert (get_executable_name P path w
          = match first_executable listing with
            | Some f => (Ok f, w)
            | None => (Raise (Exception "Cannot find executable"), w)
            end) as ->.
  { unfold get_executable_name, mbind, M_bind, get_files. simpl. rewrite Hl.
    by destruct (first_executable listing). }
  split; [|split].
  - intros f. rewrite <- first_executable_Some.
    destruct (first_executable listing); split; congruence.
  - rewrite <- first_executable_None.
    destruct (first_executable listing); split; congruence.
  - intros H.
    assert (first_executable listing = None) as ->; [|done].
    apply first_executable_None. eapply Forall_impl; [exact H|].
    intros g Hg [Hs Hn]. auto.
Qed.

Lemma get_executable_name_first_match_witness :
  get_executable_name Demo.platform "C:/tmp/run/root" Demo.extracted
  = (Ok "app.exe", Demo.extracted).
Proof.
  apply (proj1 (get_executable_name_first_match Demo.platform Demo.extracted
                  "C:/tmp/run/root"
                  ["icon.png"; "index.html"; "app.exe"; "resources.pak";
                   "package.json"]
                  eq_refl) "app.exe").
  exists ["icon.png"; "index.html"], ["resources.pak"; "package.json"].
  split_and!.
  - reflexivity.
  - split; [by exists "app"|discriminate].
  - repeat constructor; intros H%is_executable_spec; discriminate H.
Defined.

(** The helper binary is passed over, alone or before a real executable. *)
Example first_executable_skips_helper :
  first_executable ["notification_helper.exe"; "readme.txt"] = None
  ∧ first_executable ["notification_helper.exe"; "game.exe"; "other.exe"]
    = Some "game.exe".
Proof. by vm_compute. Qed.

(** ** The project title *)

Lemma contains_cons (sub : string) (c : ascii) (s : string) :
  Str.contains sub (String c s) = Str.startswith sub (String c s) || Str.contains sub s.
Proof. done. Qed.

Lemma first_line_cons (c : ascii) (s : string) :
  first_line (String c s)
  = if Ascii.eqb c newline then "" else String c (first_line s).
Proof.
  unfold first_line. simpl. destruct (Ascii.eqb c newline); [done|].
  by destruct (Str.split_first newline s).
Qed.

Lemma startswith_first_line (p s : string) :
  Str.count newline p = 0 →
  Str.startswith p s = true → Str.startswith p (first_line s) = true.
Proof.
  revert s. induction p as [|a p IH]; intros s Hc H; [done|].
  destruct s as [|b s]; [done|]. cbn [Str.count Str.startswith] in *.
  apply andb_true_iff in H as [Hab Hp]. apply Ascii.eqb_eq in Hab as <-.
  destruct (Ascii.eqb newline a) eqn:Ha; [lia|].
  rewrite first_line_cons, Ascii.eqb_sym, Ha. cbn [Str.startswith].
  rewrite Ascii.eqb_refl. apply IH; [lia|done].
Qed.

Lemma startswith_straddle (p s t : string) :
  Str.startswith p (s +:+ t) = true → Str.startswith p s = false →
  String.length s < String.length p
  ∧ Str.startswith (Str.drop (String.length s) p) t = true.
Proof.
  revert s. induction p as [|a p IH]; intros s H Hs; [done|].
  destruct s as [|b s]; [simpl; split; [lia|done]|].
  rewrite str_app_cons in H. cbn [Str.startswith String.length Str.drop] in *.
  apply andb_true_iff in H as [Hab Hp]. rewrite Hab in Hs. simpl in Hs.
  destruct (IH s Hp Hs) as [? ?]. split; [lia|done].
Qed.

(** A tag cannot begin inside the text before it and end inside itself. *)
Lemma open_tag_straddle (c : ascii) (s rest : string) :
  Str.startswith "<title>" (String c s) = false →
  Str.startswith "<title>" (String c s +:+ "<title>" +:+ rest) = false.
Proof.
  intros Hs. destruct (Str.startswith _ (_ +:+ _)) eqn:H; [|done].
  destruct (startswith_straddle _ _ _ H Hs) as [Hlen Hd]. exfalso.
  simpl in Hlen, Hd.
  destruct (String.length s) as [|[|[|[|[|[|?]]]]]]; simpl in Hd;
    first [discriminate Hd | lia].
Qed.

Lemma re_search_title_absent (s : string) :
  Str.contains "<title>" s = false → re_search_title s = None.
Proof.
  induction s as [|c s IH]; intros H; [done|].
  rewrite contains_cons in H. apply orb_false_iff in H as [H1 H2].
  cbn [re_search_title]. unfold match_title_at. rewrite H1. by apply IH.
Qed.

Lemma re_search_title_skip (pre rest : string) :
  Str.contains "<title>" pre = false →
  re_search_title (pre +:+ "<title>" +:+ rest)
  = re_search_title ("<title>" +:+ rest).
Proof.
  induction pre as [|c pre IH]; intros H; [done|].
  rewrite contains_cons in H. apply orb_false_iff in H as [H1 H2].
  pose proof (open_tag_straddle c pre rest H1) as Hs.
  rewrite str_app_cons in *. cbn [re_search_title].
  unfold match_title_at at 1. rewrite Hs. by apply IH.
Qed.

Lemma match_group_none (close s : string) :
  Str.count newline close = 0 →
  Str.contains close (first_line s) = false →
  match_group_then close s = None.
Proof.
  intros Hc. induction s as [|c s IH]; intros H.
  - simpl in *. apply orb_false_iff in H as [H _]. by rewrite H.
  - rewrite first_line_cons in H. cbn [match_group_then].
    destruct (Ascii.eqb c newline) eqn:Hn.
    + destruct (Str.startswith close (String c s)) eqn:Hs; [|done].
      apply (startswith_first_line _ _ Hc) in Hs.
      rewrite first_line_cons, Hn in Hs.
      simpl in H. apply orb_false_iff in H as [H _]. congruence.
    + rewrite contains_cons in H. apply orb_false_iff in H as [H1 H2].
      rewrite (IH H2).
      destruct (Str.startswith close (String c s)) eqn:Hs; [|done].
      apply (startswith_first_line _ _ Hc) in Hs.
      rewrite first_line_cons, Hn in Hs. congruence.
Qed.

Lemma first_line_close_tail (post : string) :
  Str.contains "</title>" (first_line post) = false →
  Str.contains "</title>" (first_line ("/title>" +:+ post)) = false.
Proof.
  intros H. unfold String.app. simpl. rewrite !first_line_cons. simpl. done.
Qed.

Lemma match_group_greedy (t post : string) :
  Str.count newline t = 0 →
  Str.contains "</title>" (first_line post) = false →
  match_group_then "</title>" (t +:+ "</title>" +:+ post) = Some t.
Proof.
  intros Ht Hp. induction t as [|c t IH].
  - change ("" +:+ "</title>" +:+ post) with (String "<" ("/title>" +:+ post)).
    cbn [match_group_then].
    rewrite (match_group_none "</title>" ("/title>" +:+ post));
      [|done|by apply first_line_close_tail].
    change (Ascii.eqb "<" newline) with false. cbn iota.
    assert (Str.startswith "</title>" (String "<" ("/title>" +:+ post)) = true) as ->;
      [|done].
    unfold String.app. simpl. done.
  - cbn [Str.count] in Ht. destruct (Ascii.eqb newline c) eqn:Hn; [lia|].
    rewrite str_app_cons. cbn [match_group_then].
    rewrite Ascii.eqb_sym, Hn, IH by lia. done.
Qed.

(** *** Reading the entry document *)

Lemma open_read_data (w : world) (p contents : string) :
  files w !! p = Some (Data contents) → open_read p w = (Ok contents, w).
Proof. intros H. unfold open_read, mbind, M_bind, get_files. simpl. by rewrite H. Qed.

Lemma read_text_data (w : world) (p contents : string) :
  files w !! p = Some (Data contents) →
  read_text p w = (Ok (universal_newlines contents), w).
Proof.
  intros H. unfold read_text, mbind, M_bind. by rewrite (open_read_data _ _ _ H).
Qed.

(** A text without carriage returns is read as it is stored. *)
Lemma universal_newlines_id (s : string) :
  Str.count carriage_return s = 0 → universal_newlines s = s.
Proof.
  unfold universal_newlines. induction s as [|c s IH]; intros H; [done|].
  cbn [Str.count translate_newlines] in *.
  rewrite Ascii.eqb_sym. destruct (Ascii.eqb carriage_return c); [lia|].
  rewrite andb_false_r, IH; [done|lia].
Qed.

(** The translation of line ends makes no text without line ends appear. *)
Lemma startswith_translate_newlines (p s : string) :
  Str.count carriage_return p = 0 → Str.count newline p = 0 →
  Str.startswith p (translate_newlines false s) = true →
  Str.startswith p s = true.
Proof.
  revert s. induction p as [|a p IH]; intros s Hcr Hnl H; [done|].
  destruct s as [|c s]; [done|].
  cbn [Str.count] in Hcr, Hnl.
  destruct (Ascii.eqb carriage_return a) eqn:Ea; [lia|].
  destruct (Ascii.eqb newline a) eqn:En; [lia|].
  cbn [translate_newlines] in H.
  destruct (Ascii.eqb c carriage_return) eqn:Ec.
  - cbn [Str.startswith] in H. rewrite Ascii.eqb_sym, En in H. done.
  - rewrite andb_false_r in H. cbn [Str.startswith] in *.
    apply andb_true_iff in H as [Hac Hp]. rewrite Hac. apply IH; [lia|lia|done].
Qed.

Lemma contains_translate_newlines (p : string) (after_cr : bool) (s : string) :
  Str.count carriage_return p = 0 → Str.count newline p = 0 → p ≠ "" →
  Str.contains p (translate_newlines after_cr s) = true →
  Str.contains p s = true.
Proof.
  intros Hcr Hnl Hp. revert after_cr.
  induction s as [|c s IH]; intros after_cr H; [done|].
  rewrite contains_cons. apply orb_true_iff.
  cbn [translate_newlines] in H.
  destruct (Ascii.eqb c carriage_return) eqn:Ec.
  - rewrite contains_cons in H. apply orb_true_iff in H as [H|H]; [|eauto].
    destruct p as [|a p]; [done|]. cbn [Str.count Str.startswith] in *.
    destruct (Ascii.eqb newline a) eqn:En; [lia|].
    rewrite Ascii.eqb_sym, En in H. done.
  - destruct (Ascii.eqb c newline && after_cr) eqn:Es; [eauto|].
    rewrite contains_cons in H. apply orb_true_iff in H as [H|H]; [|eauto].
    left. apply startswith_translate_newlines; [done|done|].
    cbn [translate_newlines]. by rewrite Ec, andb_false_r.
Qed.

Lemma universal_newlines_no_title (contents : string) :
  Str.contains "<title>" contents = false →
  Str.contains "<title>" (universal_newlines contents) = false.
Proof.
  intros H. destruct (Str.contains _ (universal_newlines _)) eqn:E; [|done].
  apply contains_translate_newlines in E; [congruence|done|done|done].
Qed.

(** What [get_project_title] gives for the text of the entry document as
    the program reads it, [text] below: a text with no [<title>] substring
    makes it fail ([re.search] gives [None], whose [group] raises
    AttributeError); when the first [<title>] of the text is followed on the
    same line by [</title>], the result is the HTML-unescaped text between
    that tag and the last [</title>] of that line. *)
Lemma get_project_title_first_line_match (w : world) (path contents : string) :
  files w !! os_path_join path "index.html" = Some (Data contents) →
  let text := universal_newlines contents in
  (Str.contains "<title>" contents = false →
   get_project_title path w
   = (Raise (AttributeError "'NoneType' object has no attribute 'group'"), w))
  ∧ (∀ pre t post,
       text = pre +:+ "<title>" +:+ t +:+ "</title>" +:+ post →
       Str.contains "<title>" pre = false →
       Str.count newline t = 0 →
       Str.contains "</title>" (first_line post) = false →
       get_project_title path w = (Ok (unescape_html t), w)).
Proof.
  intros Hf text.
  assert (get_project_title path w = (project_title_of text, w)) as ->.
  { unfold get_project_title, mbind, M_bind. by rewrite (read_text_data _ _ _ Hf). }
  unfold project_title_of. split.
  - intros H. subst text.
    by rewrite re_search_title_absent by by apply universal_newlines_no_title.
  - intros pre t post -> Hpre Ht Hpost.
    rewrite re_search_title_skip by done.
    change ("<title>" +:+ t +:+ "</title>" +:+ post)
      with (String "<" ("title>" +:+ t +:+ "</title>" +:+ post)).
    cbn [re_search_title]. unfold match_title_at.
    change (Str.startswith "<title>" (String "<" ("title>" +:+ t +:+ "</title>" +:+ post)))
      with true.
    change (Str.drop 7 (String "<" ("title>" +:+ t +:+ "</title>" +:+ post)))
      with (t +:+ "</title>" +:+ post).
    by rewrite match_group_greedy.
Qed.

Example get_project_title_of_the_package :
  get_project_title "C:/tmp/run/root" Demo.extracted
  = (Ok "Demo & App", Demo.extracted).
Proof.
  apply (proj2 (get_project_title_first_line_match Demo.extracted
                  "C:/tmp/run/root" Demo.html eq_refl)
           "<html><head>" "Demo &amp; App" "</head></html>");
    reflexivity.
Qed.

(** A title interrupted by a carriage return is interrupted by a line break
    for the program. *)
Example get_project_title_carriage_return :
  (get_project_title "C:/tmp/run/root"
     (World {[ "C:/tmp/run/root/index.html"
               := Data ("<title>A" +:+ String carriage_return "B</title>") ]} [])).1
  = Raise (AttributeError "'NoneType' object has no attribute 'group'").
Proof. by vm_compute. Qed.

(** C8 does not hold of the code: two documents that have a [<title>] tag.
    In the first the tag spans two lines and the extraction fails as if
    there were none; in the second another [</title>] follows on the line,
    and what is returned runs up to the last one, which is not the contents
    of the tag. *)
Theorem title_tag_present_but_not_returned :
  Str.contains "<title>" ("<title>Demo" +:+ String newline "App</title>") = true
  ∧ project_title_of ("<title>Demo" +:+ String newline "App</title>")
    = Raise (AttributeError "'NoneType' object has no attribute 'group'")
  ∧ (get_project_title "C:/tmp/run/root"
       (World {[ "C:/tmp/run/root/index.html"
                 := Data "<title>A</title><svg><title>B</title></svg>" ]} [])).1
    = Ok "A</title><svg><title>B".
Proof. by vm_compute. Qed.

(** ** The icon extractor *)

Lemma app_suffix_neq (s t : string) : t ≠ "" → s +:+ t ≠ s.
Proof.
  intros Ht E. apply (f_equal String.length) in E. rewrite str_length_app in E.
  destruct t; [done|]. simpl in E. lia.
Qed.

Lemma parse_package_json_ok (P : platform) (w : world) (path text : string) (j : json) :
  files w !! os_path_join path "package.json" = Some (Data text) →
  json_loads P text = Some j →
  parse_package_json P path w = (Ok j, w).
Proof.
  intros Hf Hj. unfold parse_package_json, mbind, M_bind.
  by rewrite (open_read_data _ _ _ Hf), Hj.
Qed.

(** The icon extractor where it works: with no window block in the manifest
    the source icon is [icon.png]; with a window block that has an icon entry
    it is that entry, whatever else lies in the directory.  The converted
    icon is written at the path of the source with [.ico] appended, that
    path is the result, and the source file is still there. *)
Lemma get_icon_as_ico_resolves
    (P : platform) (w : world) (path text name image ico : string)
    (fields : list (string * json)) :
  files w !! os_path_join path "package.json" = Some (Data text) →
  json_loads P text = Some (JObject fields) →
  icon_name_of fields name →
  files w !! os_path_join path name = Some (Data image) →
  image_to_ico P image = Some ico →
  let source := os_path_join path name in
  let w' := (get_icon_as_ico P path w).2 in
  get_icon_as_ico P path w
  = (Ok (source +:+ ".ico"),
     World (<[source +:+ ".ico" := Data ico]> (files w)) (events w))
  ∧ files w' !! (source +:+ ".ico") = Some (Data ico)
  ∧ files w' !! source = Some (Data image).
Proof.
  intros Hf Hj Hname Hsrc Hico source w'. subst source.
  assert (get_icon_as_ico P path w
          = (Ok (os_path_join path name +:+ ".ico"),
             World (<[os_path_join path name +:+ ".ico" := Data ico]> (files w))
                   (events w))) as E.
  { unfold get_icon_as_ico, mbind at 1, M_bind at 1.
    rewrite (parse_package_json_ok _ _ _ _ _ Hf Hj).
    destruct Hname as [Hw|window name Hw Hi].
    - unfold mbind, M_bind, lift, get_files, write_file, put_files, mret, M_ret.
      cbn -[os_path_join]. rewrite Hw. cbn -[os_path_join].
      rewrite Hsrc, Hico. done.
    - unfold mbind, M_bind, lift, get_files, write_file, put_files, mret, M_ret.
      cbn -[os_path_join]. rewrite Hw. cbn -[os_path_join]. rewrite Hi.
      cbn -[os_path_join]. rewrite Hsrc, Hico. done. }
  subst w'. rewrite E. simpl. split_and!; [done|apply lookup_insert_eq|].
  rewrite lookup_insert_ne; [done|]. by apply app_suffix_neq.
Qed.

Example get_icon_as_ico_default :
  get_icon_as_ico Demo.platform "C:/tmp/run/root" Demo.extracted
  = (Ok "C:/tmp/run/root/icon.png.ico",
     World (<["C:/tmp/run/root/icon.png.ico" := Data "ICO:PNG"]>
              (files Demo.extracted))
           (events Demo.extracted)).
Proof.
  apply (get_icon_as_ico_resolves Demo.platform Demo.extracted "C:/tmp/run/root"
           Demo.manifest_text "icon.png" "PNG" "ICO:PNG"
           [("name", JString "demo")] eq_refl eq_refl).
  - by apply icon_default.
  - reflexivity.
  - reflexivity.
Qed.

(** With both images in the directory the override wins. *)
Example get_icon_as_ico_override_beats_default :
  (get_icon_as_ico (Demo.platform_of Demo.manifest_with_icon)
     "C:/tmp/run/root" Demo.extracted_with_logo).1
  = Ok "C:/tmp/run/root/logo.png.ico".
Proof. by vm_compute. Qed.

(** C5 does not hold of the code: the manifest has a window block without
    an icon entry, so it carries no icon override, and [icon.png] is in the
    directory; the extractor raises [KeyError('icon')] where the claim has
    it settle on the default name, and converts nothing. *)
Theorem window_block_without_icon_raises :
  dict_get "icon" [("width", JNumber 480)] = None
  ∧ files Demo.extracted !! "C:/tmp/run/root/icon.png" = Some (Data "PNG")
  ∧ get_icon_as_ico (Demo.platform_of Demo.manifest_without_icon)
      "C:/tmp/run/root" Demo.extracted
    = (Raise (KeyError "icon"), Demo.extracted).
Proof. by vm_compute. Qed.
(** ** Archive validation *)

Lemma split_head (sep : ascii) (s : string) :
  ∃ rest, Str.split sep s = (Str.split_first sep s).1 :: rest.
Proof.
  induction s as [|c s [rest IH]]; simpl; [by exists []|].
  destruct (Ascii.eqb c sep); [by eexists|].
  rewrite IH. destruct (Str.split_first sep s). by eexists.
Qed.

Lemma get_zip_inner_folder_name_cons (info : string * file) (rest : list (string * file)) :
  get_zip_inner_folder_name (info :: rest) = Ok (leading_segment info.1).
Proof.
  unfold get_zip_inner_folder_name, leading_segment.
  destruct (split_head "/" info.1) as [tl ->]. done.
Qed.

Lemma bind_eq {A B : Type} (m : M A) (f : A → M B) (w : world) :
  (m ≫= f) w
  = match m w with
    | (Ok a, w') => f a w'
    | (Raise e, w') => (Raise e, w')
    end.
Proof. done. Qed.

(** [ExtractWorker._run] on a file that opens as an archive: the extraction,
    then the two checks. *)
Lemma ExtractWorker_run_eq (ew : ExtractWorker) (w : world) (zip : list (string * file)) :
  files w !! ew_filename ew = Some (Zip zip) →
  ExtractWorker_run ew w
  = match extractall zip (ew_dest ew) w with
    | (Raise e, w1) => (Raise e, w1)
    | (Ok _, w1) =>
        match zip with
        | [] => (Raise (IndexError "list index out of range"), w1)
        | info :: _ =>
            let root := os_path_join (ew_dest ew) (leading_segment info.1) in
            if exists_in (files w1) (os_path_join root "resources.pak")
            then (Ok root, log (Extracted root) w1)
            else (Raise (Exception "Invalid zip selected"), w1)
        end
    end.
Proof.
  intros Hz. unfold ExtractWorker_run. rewrite bind_eq.
  assert (open_zip (ew_filename ew) w = (Ok zip, w)) as ->.
  { unfold open_zip, mbind, M_bind, get_files. simpl. by rewrite Hz. }
  rewrite bind_eq.
  destruct (extractall zip (ew_dest ew) w) as [[[]|e] w1]; [|done].
  destruct zip as [|info rest]; [done|].
  rewrite bind_eq. unfold lift. rewrite get_zip_inner_folder_name_cons.
  unfold verify_folder, os_path_exists.
  unfold mbind, M_bind, get_files, mret, M_ret, raise, emit, log.
  cbn -[os_path_join exists_in]. by destruct (exists_in _ _).
Qed.

(** C3: for a selected file that opens as a zip archive, an exception of
    [extractall] itself is passed on; once the whole archive is extracted,
    [ExtractWorker._run] fails in exactly two cases, both InvalidArchive in
    the specification: with [IndexError] when the archive has no entry, and
    with [Exception('Invalid zip selected')] when [resources.pak] does not
    exist under the directory named by the leading segment of the first
    entry.  Otherwise it succeeds with that directory.  The checks change no
    file. *)
Theorem ExtractWorker_run_validates
    (ew : ExtractWorker) (w : world) (zip : list (string * file)) :
  files w !! ew_filename ew = Some (Zip zip) →
  let extraction := extractall zip (ew_dest ew) w in
  let marker info :=
    os_path_join (os_path_join (ew_dest ew) (leading_segment info.1))
                 "resources.pak" in
  (∀ e, extraction.1 = Raise e → ExtractWorker_run ew w = (Raise e, extraction.2))
  ∧ (extraction.1 = Ok () →
     (∀ e, (ExtractWorker_run ew w).1 = Raise e
           ↔ (zip = [] ∧ e = IndexError "list index out of range")
             ∨ (∃ info rest, zip = info :: rest
                             ∧ exists_in (files extraction.2) (marker info) = false
                             ∧ e = Exception "Invalid zip selected"))
     ∧ (∀ root, (ExtractWorker_run ew w).1 = Ok root
                ↔ ∃ info rest, zip = info :: rest
                               ∧ exists_in (files extraction.2) (marker info) = true
                               ∧ root = os_path_join (ew_dest ew)
                                          (leading_segment info.1))
     ∧ files (ExtractWorker_run ew w).2 = files extraction.2).
Proof.
  intros Hz extraction marker. rewrite (ExtractWorker_run_eq _ _ _ Hz).
  subst extraction marker.
  destruct (extractall zip (ew_dest ew) w) as [[[]|e0] w1]; cbn [fst snd].
  - split; [done|]. intros _.
    destruct zip as [|info rest]; cbn -[os_path_join exists_in].
    + split_and!; [| |done].
      * intros e. split; [intros [= <-]; by left|].
        intros [[_ ->]|(?&?&?&_)]; done.
      * intros root. split; [done|]. intros (?&?&?&_). done.
    + destruct (exists_in _ _) eqn:Hm; cbn -[os_path_join exists_in].
      * split_and!; [| |done].
        -- intros e. split; [done|].
           intros [[? _]|(i&r&[= <- <-]&Hf&_)]; [done|congruence].
        -- intros root. split; [intros [= <-]; by eexists _, _|].
           intros (?&?&[= <- <-]&_&->). done.
      * split_and!; [| |done].
        -- intros e. split; [intros [= <-]; right; by eexists _, _|].
           intros [[? _]|(?&?&[= <- <-]&_&->)]; done.
        -- intros root. split; [done|].
           intros (i&r&[= <- <-]&Hf&_). congruence.
  - split; [by intros e [= <-]|done].
Qed.

Lemma ExtractWorker_run_validates_witness :
  (ExtractWorker_run Demo.extract_worker Demo.selected).1 = Ok "C:/tmp/run/root".
Proof.
  apply (proj1 (proj2 (proj2 (ExtractWorker_run_validates Demo.extract_worker
                                Demo.selected Demo.archive eq_refl) eq_refl))).
  eexists _, _. split_and!; reflexivity.
Defined.

(** An archive with no entry, and one without the marker file. *)
Example ExtractWorker_run_rejects :
  (ExtractWorker_run Demo.extract_worker
     (World {[ "C:/dl/demo.zip" := Zip [] ]} [])).1
  = Raise (IndexError "list index out of range")
  ∧ (ExtractWorker_run Demo.extract_worker
       (World {[ "C:/dl/demo.zip" := Zip [("root/app.exe", Data "MZ")] ]} [])).1
    = Raise (Exception "Invalid zip selected").
Proof. by vm_compute. Qed.

(** Archives whose first entry is unusual: a first entry below [.] names the
    destination itself as the root; a marker that is a directory is a
    marker; and a file in the way of a directory stops the extraction. *)
Example ExtractWorker_run_unusual_entries :
  (ExtractWorker_run Demo.extract_worker
     (World {[ "C:/dl/demo.zip" := Zip [("./resources.pak", Data "pak")] ]} [])).1
  = Ok "C:/tmp/run/."
  ∧ (ExtractWorker_run Demo.extract_worker
       (World {[ "C:/dl/demo.zip" := Zip [("root/resources.pak/", Data "")] ]} [])).1
    = Ok "C:/tmp/run/root"
  ∧ (ExtractWorker_run Demo.extract_worker
       (World {[ "C:/dl/demo.zip"
                 := Zip [("root", Data "x"); ("root/resources.pak", Data "pak")] ]}
              [])).1
    = Raise (OSError "Cannot create a file when that file already exists: C:/tmp/run/root").
Proof. by vm_compute. Qed.

(** ** The installer generator *)

Lemma create_installer_unfold (P : platform) (path : string) (w : world) :
  create_installer P path w
  = (package_name ← invoke_compiler P path;
     found ← os_path_exists (expected_output_file path package_name);
     if found : bool
     then mret (expected_output_file path package_name)
     else raise (Exception "Did not output to expected spot")) w.
Proof.
  unfold create_installer, invoke_compiler, expected_output_file.
  unfold mbind, M_bind, lift, mret, M_ret.
  repeat (next_call; try reflexivity).
Qed.

(** A command either cannot be started, and then nothing happens, or it is
    started once. *)
Lemma run_command_events (P : platform) (args : list string) (check : bool) (w : world) :
  (run_command P args check w = (Raise (FileNotFoundError (hd "" args)), w)
   ∧ can_start P args (files w) = false)
  ∨ (events (run_command P args check w).2 = events w ++ [Spawn args]
     ∧ can_start P args (files w) = true).
Proof.
  unfold run_command, mbind, M_bind, emit, get_files, put_files, mret, M_ret, raise.
  simpl. destruct (can_start P args (files w)); [right|left; by destruct w].
  simpl. destruct (run_process P args (files w)) as [code fs']. simpl.
  by destruct (check && negb (code =? 0)%Z).
Qed.

(** C7: once the compiler has been run, [create_installer] looks for the
    file [<directory>/Generated Installer/<packageName> Setup.exe]; it
    returns that path when the file exists and raises
    [Exception('Did not output to expected spot')] (InstallerBuildFailed)
    when it does not.  The check changes nothing. *)
Theorem create_installer_checks_output
    (P : platform) (path package_name : string) (w w1 : world) :
  invoke_compiler P path w = (Ok package_name, w1) →
  let expected :=
    os_path_join (os_path_join path "Generated Installer")
                 (package_name +:+ " Setup.exe") in
  create_installer P path w
  = if exists_in (files w1) expected
    then (Ok expected, w1)
    else (Raise (Exception "Did not output to expected spot"), w1).
Proof.
  intros H expected. rewrite create_installer_unfold.
  unfold mbind at 1, M_bind at 1. rewrite H.
  unfold expected_output_file. rewrite str_app_assoc.
  change (" Setup" +:+ ".exe") with " Setup.exe". fold expected.
  unfold os_path_exists, mbind, M_bind, get_files, mret, M_ret. simpl.
  by destruct (exists_in (files w1) expected).
Qed.

Lemma create_installer_checks_output_witness :
  create_installer Demo.platform "C:/tmp/run/root" Demo.extracted
  = (Ok "C:/tmp/run/root/Generated Installer/demo Setup.exe",
     (invoke_compiler Demo.platform "C:/tmp/run/root" Demo.extracted).2).
Proof.
  apply (create_installer_checks_output Demo.platform "C:/tmp/run/root" "demo"
           Demo.extracted
           (invoke_compiler Demo.platform "C:/tmp/run/root" Demo.extracted).2).
  by vm_compute.
Defined.

(** A compiler that exits with 0 and writes nothing. *)
Example create_installer_output_absent :
  (create_installer Scenario.quiet_platform "C:/tmp/run/root" Demo.extracted).1
  = Raise (Exception "Did not output to expected spot").
Proof. by vm_compute. Qed.
(** ** Failure in the two stages of a run *)

Lemma cleanup_below (name p : string) (fs : gmap string file) :
  below name p = true →
  filter (λ kv : string * file, below name kv.1 = false) fs !! p = None.
Proof.
  intros Hb.
  destruct (filter _ fs !! p) eqn:E; [|done].
  apply map_lookup_filter_Some in E as [_ E]. simpl in E. congruence.
Qed.

Lemma cleanup_outside (name p : string) (fs : gmap string file) :
  below name p = false →
  filter (λ kv : string * file, below name kv.1 = false) fs !! p = fs !! p.
Proof.
  intros Hb.
  destruct (fs !! p) eqn:E.
  - by apply map_lookup_filter_Some.
  - apply map_lookup_filter_None. by left.
Qed.



(** The widget after each failure. *)
Example failure_controls :
  controls (run_options_worker Demo.platform
              (Demo.options_worker false true "C:/dl/demo Setup.exe")
              Demo.ready_widget Demo.extracted_untitled).1 = Some true
  ∧ events (run_extract_worker Demo.extracting_widget
              Demo.selected_without_marker).2
    = [Error "Invalid zip selected"; ErrorDialog "Invalid zip selected";
       ProcessEnded; RemoveMe].
Proof. by vm_compute. Qed.

(** ** Relations that every step of a computation respects *)

Section Respects.

Variable R : world → world → Prop.
Hypothesis R_refl : ∀ w, R w w.
Hypothesis R_trans : ∀ a b c, R a b → R b c → R a c.

Lemma respects_bind {A B : Type} (m : M A) (f : A → M B) :
  respects R m → (∀ a, respects R (f a)) → respects R (m ≫= f).
Proof.
  intros Hm Hf w. unfold mbind, M_bind. specialize (Hm w).
  destruct (m w) as [[a|e] w1]; simpl in *; [|done].
  eapply R_trans; [exact Hm|apply Hf].
Qed.

Lemma respects_ret {A : Type} (a : A) : respects R (mret a).
Proof. intros w. apply R_refl. Qed.

Lemma respects_raise {A : Type} (e : exn) : respects R (raise (A:=A) e).
Proof. intros w. apply R_refl. Qed.

Lemma respects_lift {A : Type} (r : result A) : respects R (lift r).
Proof. intros w. apply R_refl. Qed.

Lemma respects_get_files : respects R get_files.
Proof. intros w. apply R_refl. Qed.

Lemma respects_if {A : Type} (b : bool) (m1 m2 : M A) :
  respects R m1 → respects R m2 → respects R (if b then m1 else m2).
Proof. by destruct b. Qed.

Lemma respects_open_read (p : string) : respects R (open_read p).
Proof.
  apply respects_bind; [apply respects_get_files|]. intros fs.
  destruct (fs !! p) as [[| |]|]; try destruct (has_below fs p);
    first [apply respects_ret | apply respects_raise].
Qed.

Lemma respects_read_text (p : string) : respects R (read_text p).
Proof.
  apply respects_bind; [apply respects_open_read|]. intros. apply respects_ret.
Qed.

Lemma respects_finally {A : Type} (body : M A) (exit : M unit) :
  respects R body → respects R exit → respects R (finally body exit).
Proof.
  intros Hb He w. unfold finally. specialize (Hb w).
  destruct (body w) as [r w1]. simpl in *. eapply R_trans; [exact Hb|apply He].
Qed.

Lemma respects_os_path_exists (p : string) : respects R (os_path_exists p).
Proof.
  apply respects_bind; [apply respects_get_files|]. intros fs. apply respects_ret.
Qed.

Lemma respects_get_executable_name (P : platform) (path : string) :
  respects R (get_executable_name P path).
Proof.
  apply respects_bind; [apply respects_get_files|]. intros fs.
  destruct (listdir P fs path); [|apply respects_raise].
  destruct (first_executable _); [apply respects_ret|apply respects_raise].
Qed.

Lemma respects_parse_package_json (P : platform) (path : string) :
  respects R (parse_package_json P path).
Proof.
  apply respects_bind; [apply respects_open_read|]. intros text.
  destruct (json_loads P text); [apply respects_ret|apply respects_raise].
Qed.

Lemma respects_get_project_title (path : string) :
  respects R (get_project_title path).
Proof.
  apply respects_bind; [apply respects_read_text|]. intros. apply respects_lift.
Qed.

(** The icon extractor touches one path, and only as its last step. *)
Lemma respects_get_icon_as_ico (P : platform) (path : string) :
  (∀ source ico, respects R (write_file (source +:+ ".ico") (Data ico))) →
  (∀ source, respects R (remove_file (source +:+ ".ico"))) →
  respects R (get_icon_as_ico P path).
Proof.
  intros Hw Hr.
  apply respects_bind; [apply respects_parse_package_json|]. intros j.
  apply respects_bind; [apply respects_lift|]. intros has.
  apply respects_bind; [destruct has; [apply respects_lift|apply respects_ret]|].
  intros name_value.
  apply respects_bind; [apply respects_lift|]. intros name.
  apply respects_bind; [apply respects_get_files|]. intros fs.
  destruct (fs !! _) as [[image| |]|]; try apply respects_raise.
  destruct (image_to_ico P image).
  { apply respects_bind; [apply Hw|]. intros. apply respects_ret. }
  destruct (failed_save P image) as [[partial|]|]; [| |apply respects_raise].
  - apply respects_bind; [apply Hw|]. intros. apply respects_raise.
  - apply respects_bind; [apply Hr|]. intros. apply respects_raise.
Qed.

End Respects.

(** *** Frames *)

Lemma keeps_refl (q : string) (w : world) : keeps q w w.
Proof. done. Qed.

Lemma keeps_trans (q : string) (a b c : world) :
  keeps q a b → keeps q b c → keeps q a c.
Proof. unfold keeps. congruence. Qed.

Lemma keeps_emit (q : string) (ev : event) : respects (keeps q) (emit ev).
Proof. done. Qed.

Lemma keeps_write_file (q p : string) (f : file) :
  p ≠ q → respects (keeps q) (write_file p f).
Proof. intros Hp w. unfold keeps. simpl. by rewrite lookup_insert_ne. Qed.

Lemma keeps_remove_file (q p : string) :
  p ≠ q → respects (keeps q) (remove_file p).
Proof. intros Hp w. unfold keeps. simpl. by rewrite lookup_delete_ne. Qed.

Lemma keeps_os_replace (P : platform) (q src dst : string) :
  src ≠ q → dst ≠ q → respects (keeps q) (os_replace P src dst).
Proof.
  intros Hs Hd w. unfold keeps, os_replace, mbind, M_bind, get_files. simpl.
  destruct (files w !! src); simpl; [|done].
  destruct (can_replace P _ _ _ && _); simpl; [|done].
  by rewrite lookup_insert_ne, lookup_delete_ne.
Qed.

Lemma keeps_run_command (P : platform) (q : string) (args : list string) (check : bool) :
  (∀ fs, (run_process P args fs).2 !! q = fs !! q) →
  respects (keeps q) (run_command P args check).
Proof.
  intros H w. unfold keeps, run_command, mbind, M_bind, emit, get_files, put_files.
  simpl. specialize (H (files w)).
  destruct (can_start P args (files w)); [|done]. simpl.
  destruct (run_process P args (files w)) as [code fs']. simpl in *.
  by destruct (check && negb (code =? 0)%Z).
Qed.

(** *** Suffixes of paths *)

Lemma has_suffix_app (s t suffix : string) :
  has_suffix suffix t → has_suffix suffix (s +:+ t).
Proof. intros [stem ->]. exists (s +:+ stem). by rewrite str_app_assoc. Qed.

Lemma os_path_join_suffix (a b suffix : string) :
  has_suffix suffix b → has_suffix suffix (os_path_join a b).
Proof.
  intros H. unfold os_path_join.
  destruct (Str.startswith "/" b); [done|].
  destruct (String.eqb a "" || Str.endswith "/" a); by repeat apply has_suffix_app.
Qed.

Lemma has_suffix_refl (s : string) : has_suffix s s.
Proof. by exists "". Qed.

(** Two suffixes of the same length that differ cannot both end a string. *)
Lemma has_suffix_disjoint (s1 s2 q : string) :
  String.length s1 = String.length s2 → s1 ≠ s2 →
  has_suffix s1 q → ¬ has_suffix s2 q.
Proof.
  intros Hlen Hne [a ->] [b Hb].
  assert (String.length a = String.length b) as Hab.
  { apply (f_equal String.length) in Hb. rewrite !str_length_app in Hb. lia. }
  clear Hlen. revert b Hb Hab.
  induction a as [|c a IH]; intros [|d b] Hb Hab; try discriminate Hab.
  - by change (s1 = s2) in Hb.
  - rewrite !str_app_cons in Hb. injection Hb as -> Hb.
    injection Hab as Hab. eauto.
Qed.

(** *** What the steps emit *)

Lemma silent_refl (w : world) : silent w w.
Proof. done. Qed.

Lemma silent_trans (a b c : world) : silent a b → silent b c → silent a c.
Proof. unfold silent. congruence. Qed.

Lemma silent_bind {A B : Type} (m : M A) (f : A → M B) :
  respects silent m → (∀ a, respects silent (f a)) → respects silent (m ≫= f).
Proof. apply respects_bind, silent_trans. Qed.

Lemma write_file_eq (p : string) (f : file) (w : world) :
  write_file p f w = (Ok (), World (<[p := f]> (files w)) (events w)).
Proof. done. Qed.

Lemma silent_write_file (p : string) (f : file) : respects silent (write_file p f).
Proof. done. Qed.

Lemma silent_remove_file (p : string) : respects silent (remove_file p).
Proof. done. Qed.

Lemma silent_os_replace (P : platform) (src dst : string) :
  respects silent (os_replace P src dst).
Proof.
  intros w. unfold silent, os_replace, mbind, M_bind, get_files. simpl.
  destruct (files w !! src); [|done]. by destruct (can_replace P _ _ _ && _).
Qed.

Lemma silent_get_icon_as_ico (P : platform) (path : string) :
  respects silent (get_icon_as_ico P path).
Proof.
  apply respects_get_icon_as_ico;
    [apply silent_refl|apply silent_trans|intros; apply silent_write_file
    |intros; apply silent_remove_file].
Qed.

Lemma silent_get_executable_name (P : platform) (path : string) :
  respects silent (get_executable_name P path).
Proof. apply respects_get_executable_name; [apply silent_refl|apply silent_trans]. Qed.

(** The icon step starts one process, the icon tool, as its last action. *)
Lemma fix_icon_events (P : platform) (path : string) (w : world) :
  (events (fix_icon P path w).2 = events w
   ∧ ∃ e, (fix_icon P path w).1 = Raise e)
  ∨ ∃ exe ico,
      events (fix_icon P path w).2
      = events w
        ++ [Spawn [ os_path_join (app_dir P) "third-party/rcedit/rcedit-x86.exe";
                    exe; "--set-icon"; ico ]].
Proof.
  unfold fix_icon, mbind, M_bind.
  pose proof (silent_get_executable_name P path w) as H1.
  destruct (get_executable_name P path w) as [[name|e] w1]; unfold silent in H1; simpl in H1;
    [|left; eauto].
  pose proof (silent_get_icon_as_ico P path w1) as H2.
  destruct (get_icon_as_ico P path w1) as [[ico|e] w2]; unfold silent in H2; simpl in H2;
    [|left; split; [simpl; congruence|eauto]].
  match goal with
  | |- context [run_command P ?args true w2] =>
      destruct (run_command_events P args true w2) as [[H3 _]|[H3 _]];
      [rewrite H3; left; split; [simpl; congruence|eauto]|];
      right; exists (os_path_join path name), ico;
      destruct (run_command P args true w2) as [[?|?] w3]
  end; simpl in *; congruence.
Qed.

Lemma events_emit_then {A : Type} (ev : event) (m : M A) (w : world) :
  respects silent m → events ((emit ev;; m) w).2 = events w ++ [ev].
Proof. intros H. unfold mbind, M_bind, emit. simpl. apply H. Qed.

Lemma rezip_events (P : platform) (self : OptionsWorker) (w : world) :
  events (rezip P self w).2 = events w ++ [ProgressUpdate "Recompressing (slow!)"].
Proof.
  unfold rezip, update_progress. apply events_emit_then.
  apply silent_bind; [done|]. intros fs.
  apply silent_bind; [done|]. intros _.
  apply respects_finally; [apply silent_trans| |done].
  apply silent_bind.
  { apply silent_bind; [done|]. intros fs1. by apply silent_bind. }
  intros name. apply silent_os_replace.
Qed.

Lemma invoke_compiler_events (P : platform) (path : string) (w : world) :
  (events (invoke_compiler P path w).2 = events w
   ∧ ∃ e, (invoke_compiler P path w).1 = Raise e)
  ∨ events (invoke_compiler P path w).2
    = events w
      ++ [Spawn [ os_path_join (app_dir P) "third-party/inno/iscc.exe";
                  os_path_join path "config.iss" ]].
Proof.
  unfold invoke_compiler, mbind, M_bind, lift.
  pose proof (silent_get_executable_name P path w) as H1.
  destruct (get_executable_name P path w) as [[exe|e] w1]; unfold silent in H1; simpl in H1;
    [|left; eauto].
  pose proof (respects_parse_package_json silent silent_refl silent_trans P path w1) as H2.
  destruct (parse_package_json P path w1) as [[j|e] w2]; unfold silent in H2; simpl in H2;
    [|left; split; [simpl; congruence|eauto]].
  destruct (py_getitem j "name") as [v|e]; [|left; split; [simpl; congruence|eauto]].
  pose proof (respects_get_project_title silent silent_refl silent_trans path w2) as H3.
  destruct (get_project_title path w2) as [[title|e] w3]; unfold silent in H3; simpl in H3;
    [|left; split; [simpl; congruence|eauto]].
  pose proof (silent_get_icon_as_ico P path w3) as H4.
  destruct (get_icon_as_ico P path w3) as [[ico|e] w4]; unfold silent in H4; simpl in H4;
    [|left; split; [simpl; congruence|eauto]].
  destruct (as_str v) as [name|e]; [|left; split; [simpl; congruence|eauto]].
  rewrite write_file_eq.
  match goal with
  | |- context [run_command P ?args true ?w5] =>
      destruct (run_command_events P args true w5) as [[H6 _]|[H6 _]];
      [rewrite H6; left; split; [simpl; congruence|eauto]|];
      right; destruct (run_command P args true w5) as [[?|?] w6]
  end; simpl in *; congruence.
Qed.

Lemma create_installer_events (P : platform) (path : string) (w : world) :
  (events (create_installer P path w).2 = events w
   ∧ ∃ e, (create_installer P path w).1 = Raise e)
  ∨ events (create_installer P path w).2
    = events w
      ++ [Spawn [ os_path_join (app_dir P) "third-party/inno/iscc.exe";
                  os_path_join path "config.iss" ]].
Proof.
  rewrite create_installer_unfold. unfold mbind at 1 3 5, M_bind at 1 3 5.
  destruct (invoke_compiler_events P path w) as [[H [e He]]|H];
    destruct (invoke_compiler P path w) as [[name|e'] w1]; simpl in *;
    try discriminate He; eauto.
  right. unfold os_path_exists, mbind, M_bind, get_files, mret, M_ret. simpl.
  by destruct (exists_in _ _).
Qed.

Lemma create_installer_result (P : platform) (path p : string) (w : world) :
  (create_installer P path w).1 = Ok p → has_suffix ".exe" p.
Proof.
  rewrite create_installer_unfold. unfold mbind, M_bind.
  destruct (invoke_compiler P path w) as [[name|e'] w1]; [|done].
  unfold os_path_exists, mbind, M_bind, get_files, mret, M_ret. simpl.
  destruct (exists_in _ _); [|done]. intros [= <-].
  apply os_path_join_suffix, has_suffix_app, has_suffix_refl.
Qed.

Lemma keeps_bind (q : string) {A B : Type} (m : M A) (f : A → M B) :
  respects (keeps q) m → (∀ a, respects (keeps q) (f a)) →
  respects (keeps q) (m ≫= f).
Proof. apply respects_bind, keeps_trans. Qed.

Lemma keeps_create_installer (P : platform) (path q : string) :
  ¬ has_suffix ".ico" q → ¬ has_suffix ".iss" q →
  (∀ fs, (run_process P
            [ os_path_join (app_dir P) "third-party/inno/iscc.exe";
              os_path_join path "config.iss" ] fs).2 !! q = fs !! q) →
  respects (keeps q) (create_installer P path).
Proof.
  intros Hico Hiss Hrun. unfold create_installer.
  apply keeps_bind;
    [apply respects_get_executable_name; [apply keeps_refl|apply keeps_trans]|].
  intros exe. apply keeps_bind;
    [apply respects_parse_package_json; [apply keeps_refl|apply keeps_trans]|].
  intros j. apply keeps_bind; [done|]. intros v.
  apply keeps_bind;
    [apply respects_get_project_title; [apply keeps_refl|apply keeps_trans]|].
  intros title. apply keeps_bind.
  { apply respects_get_icon_as_ico; [apply keeps_refl|apply keeps_trans| |].
    - intros source ico. apply keeps_write_file. intros <-.
      apply Hico, has_suffix_app, has_suffix_refl.
    - intros source. apply keeps_remove_file. intros <-.
      apply Hico, has_suffix_app, has_suffix_refl. }
  intros icon. apply keeps_bind; [done|]. intros name.
  apply keeps_bind.
  { apply keeps_write_file. intros <-.
    apply Hiss, os_path_join_suffix. by exists "config". }
  intros _. apply keeps_bind; [by apply keeps_run_command|].
  intros _. apply keeps_bind; [done|]. intros found. by destruct found.
Qed.

(** The icon block of [OptionsWorker._run]. *)
Lemma icon_block_events (P : platform) (self : OptionsWorker) (w : world) :
  let block := update_progress "Fixing icon";;
               fix_icon P (extracted_contents self);;
               rezip P self in
  ∃ exe ico new,
    events (block w).2 = events w ++ new
    ∧ let spawn :=
        Spawn [ os_path_join (app_dir P) "third-party/rcedit/rcedit-x86.exe";
                exe; "--set-icon"; ico ] in
      (new = [ProgressUpdate "Fixing icon"; spawn;
              ProgressUpdate "Recompressing (slow!)"]
       ∨ ((∃ e, (block w).1 = Raise e)
          ∧ (new = [ProgressUpdate "Fixing icon"]
             ∨ new = [ProgressUpdate "Fixing icon"; spawn]))).
Proof.
  intros block.
  set (w0 := World (files w) (events w ++ [ProgressUpdate "Fixing icon"])).
  assert (block w
          = (fix_icon P (extracted_contents self) ≫= λ _, rezip P self) w0) as ->
    by reflexivity.
  assert (events w0 = events w ++ [ProgressUpdate "Fixing icon"]) as Hw0
    by reflexivity.
  clearbody w0. clear block. unfold mbind, M_bind.
  destruct (fix_icon_events P (extracted_contents self) w0) as [[He [e Hr]]|(exe&ico&He)].
  - destruct (fix_icon P (extracted_contents self) w0) as [[[]|e'] w1];
      simpl in *; [done|].
    exists "", "", [ProgressUpdate "Fixing icon"]. split; [congruence|].
    right. split; [eauto|by left].
  - exists exe, ico.
    destruct (fix_icon P (extracted_contents self) w0) as [[[]|e'] w1]; simpl in *.
    + pose proof (rezip_events P self w1) as Hz.
      destruct (rezip P self w1) as [r w2]. simpl in *.
      eexists. split; [|left; reflexivity].
      rewrite Hz, He, Hw0. by rewrite <- !app_assoc.
    + eexists. split; [|right; split; [eauto|right; reflexivity]].
      rewrite He, Hw0. by rewrite <- !app_assoc.
Qed.

(** The installer block of [OptionsWorker._run]. *)
Lemma installer_block_events (P : platform) (self : OptionsWorker) (w : world) :
  let block := update_progress "Creating installer (very slow!!)";;
               generated_installer_path ← create_installer P (extracted_contents self);
               os_replace P generated_installer_path (installer_destination self) in
  ∃ new,
    events (block w).2 = events w ++ new
    ∧ let spawn :=
        Spawn [ os_path_join (app_dir P) "third-party/inno/iscc.exe";
                os_path_join (extracted_contents self) "config.iss" ] in
      (new = [ProgressUpdate "Creating installer (very slow!!)"; spawn]
       ∨ ((∃ e, (block w).1 = Raise e)
          ∧ new = [ProgressUpdate "Creating installer (very slow!!)"])).
Proof.
  intros block.
  set (w0 := World (files w)
               (events w ++ [ProgressUpdate "Creating installer (very slow!!)"])).
  assert (block w
          = (create_installer P (extracted_contents self)
             ≫= λ p, os_replace P p (installer_destination self)) w0) as ->
    by reflexivity.
  assert (events w0
          = events w ++ [ProgressUpdate "Creating installer (very slow!!)"]) as Hw0
    by reflexivity.
  clearbody w0. clear block. unfold mbind, M_bind.
  destruct (create_installer_events P (extracted_contents self) w0) as [[He [e Hr]]|He].
  - destruct (create_installer P (extracted_contents self) w0) as [[p|e'] w1];
      simpl in *; [done|].
    eexists. split; [by rewrite He, Hw0|]. right. eauto.
  - destruct (create_installer P (extracted_contents self) w0) as [[p|e'] w1];
      simpl in *.
    + pose proof (silent_os_replace P p (installer_destination self) w1) as Hz.
      destruct (os_replace P p (installer_destination self) w1) as [r w2].
      unfold silent in Hz. simpl in *.
      eexists. split; [|left; reflexivity].
      rewrite Hz, He, Hw0. by rewrite <- !app_assoc.
    + eexists. split; [|left; reflexivity].
      rewrite He, Hw0. by rewrite <- !app_assoc.
Qed.

(** The trace of [OptionsWorker._run]. *)
Lemma OptionsWorker_run_trace (P : platform) (self : OptionsWorker) (w : world) :
  ∃ exe ico new,
    events (OptionsWorker_run P self w).2 = events w ++ new
    ∧ new `prefix_of` expected_trace P self exe ico
    ∧ ((OptionsWorker_run P self w).1 = Ok () →
       new = expected_trace P self exe ico).
Proof.
  remember (OptionsWorker_run P self w) as run eqn:Hrun.
  unfold OptionsWorker_run in Hrun. unfold expected_trace.
  destruct (should_fix_icon self), (should_create_installer self).
  - destruct (icon_block_events P self w) as (exe & ico & new1 & He1 & Hn1).
    exists exe, ico. rewrite bind_eq in Hrun.
    match type of He1 with
    | events (?b w).2 = _ => destruct (b w) as [[[]|e1] w1]
    end; simpl in He1, Hn1.
    + destruct Hn1 as [->|[[e He] _]]; [|done].
      destruct (installer_block_events P self w1) as (new2 & He2 & Hn2).
      rewrite bind_eq in Hrun.
      match type of He2 with
      | events (?b w1).2 = _ => destruct (b w1) as [[[]|e2] w2]
      end; simpl in He2, Hn2; subst run.
      * destruct Hn2 as [->|[[e He] _]]; [|done].
        eexists. unfold emit. simpl. rewrite He2, He1, <- !app_assoc. simpl.
        split_and!; [reflexivity|done|done].
      * eexists. simpl. rewrite He2, He1, <- !app_assoc.
        split_and!; [reflexivity| |done].
        destruct Hn2 as [->|[_ ->]]; by eexists.
    + subst run. eexists. simpl. rewrite He1. split_and!; [reflexivity| |done].
      destruct Hn1 as [->|[_ [->| ->]]]; by eexists.
  - destruct (icon_block_events P self w) as (exe & ico & new1 & He1 & Hn1).
    exists exe, ico. rewrite bind_eq in Hrun.
    match type of He1 with
    | events (?b w).2 = _ => destruct (b w) as [[[]|e1] w1]
    end; simpl in He1, Hn1; subst run.
    + destruct Hn1 as [->|[[e He] _]]; [|done].
      eexists. unfold mbind, M_bind, mret, M_ret, emit. simpl.
      rewrite He1, <- !app_assoc. simpl. split_and!; [reflexivity|done|done].
    + eexists. simpl. rewrite He1. split_and!; [reflexivity| |done].
      destruct Hn1 as [->|[_ [->| ->]]]; by eexists.
  - exists "", "". rewrite bind_eq in Hrun. unfold mret at 1, M_ret at 1 in Hrun.
    destruct (installer_block_events P self w) as (new2 & He2 & Hn2).
    rewrite bind_eq in Hrun.
    match type of He2 with
    | events (?b w).2 = _ => destruct (b w) as [[[]|e2] w2]
    end; simpl in He2, Hn2; subst run.
    + destruct Hn2 as [->|[[e He] _]]; [|done].
      eexists. unfold emit. simpl. rewrite He2, <- !app_assoc. simpl.
      split_and!; [reflexivity|done|done].
    + eexists. simpl. rewrite He2. split_and!; [reflexivity| |done].
      destruct Hn2 as [->|[_ ->]]; by eexists.
  - subst run. exists "", "", [Success]. by split_and!.
Qed.

(** ** The order of the steps of a run *)

(** [OptionsWorker._run] is its icon block followed by [finish_run]. *)
Lemma OptionsWorker_run_split (P : platform) (self : OptionsWorker) (w : world) :
  OptionsWorker_run P self w
  = if should_fix_icon self
    then match fix_icon P (extracted_contents self)
                 (log (ProgressUpdate "Fixing icon") w) with
         | (Raise e, w1) => (Raise e, w1)
         | (Ok _, w1) =>
             match rezip P self w1 with
             | (Raise e, w2) => (Raise e, w2)
             | (Ok _, w2) => finish_run P self w2
             end
         end
    else finish_run P self w.
Proof.
  unfold OptionsWorker_run, finish_run. destruct (should_fix_icon self); [|done].
  rewrite bind_eq, bind_eq. unfold update_progress, emit at 1, log.
  rewrite bind_eq.
  destruct (fix_icon P (extracted_contents self) _) as [[[]|e] w1]; [|done].
  by destruct (rezip P self w1) as [[[]|e] w2].
Qed.

(** The installer block and the [success] signal leave alone an archive
    that nothing in the block is pointed at. *)
Lemma finish_run_keeps_archive (P : platform) (self : OptionsWorker) :
  archive_out_of_reach P self →
  respects (keeps (filename self)) (finish_run P self).
Proof.
  intros (Hzip & Hnorm & Hrun). unfold finish_run.
  assert (installer_destination self ≠ filename self) as Hdest
    by (intros E; apply Hnorm; by rewrite E).
  assert (¬ has_suffix ".ico" (filename self)) as Hico
    by (intros H; by apply (has_suffix_disjoint ".ico" ".zip" (filename self))).
  assert (¬ has_suffix ".iss" (filename self)) as Hiss
    by (intros H; by apply (has_suffix_disjoint ".iss" ".zip" (filename self))).
  assert (¬ has_suffix ".exe" (filename self)) as Hexe
    by (intros H; by apply (has_suffix_disjoint ".exe" ".zip" (filename self))).
  apply keeps_bind; [|intros; apply keeps_emit].
  destruct (should_create_installer self); [|done].
  apply keeps_bind; [apply keeps_emit|]. intros _ w0.
  unfold mbind, M_bind.
  pose proof (keeps_create_installer P (extracted_contents self) (filename self)
                Hico Hiss Hrun w0) as Hk.
  pose proof (create_installer_result P (extracted_contents self)) as Hres.
  destruct (create_installer P (extracted_contents self) w0) as [[p|e] w1] eqn:Hc;
    simpl in Hk; [|done].
  specialize (Hres p w0). rewrite Hc in Hres. specialize (Hres eq_refl).
  eapply keeps_trans; [exact Hk|].
  apply keeps_os_replace; [|done]. intros ->. by apply Hexe.
Qed.

(** Without fix-icon no recompression is ever announced. *)
Lemma no_recompression_without_fix_icon
    (P : platform) (self : OptionsWorker) (exe ico : string) (new : list event) :
  should_fix_icon self = false →
  new `prefix_of` expected_trace P self exe ico →
  ProgressUpdate "Recompressing (slow!)" ∉ new.
Proof.
  intros Hfix [rest Hrest] Hin. unfold expected_trace in Hrest.
  rewrite Hfix in Hrest. simpl in Hrest.
  assert (ProgressUpdate "Recompressing (slow!)" ∈ new ++ rest) as Hin'
    by (apply elem_of_app; by left).
  rewrite <- Hrest in Hin'. clear -Hin'.
  destruct (should_create_installer self); simpl in Hin';
    repeat (apply elem_of_cons in Hin' as [Hin'|Hin']; [discriminate|]);
    by apply elem_of_nil in Hin'.
Qed.

(** *** What [rezip] writes *)

Lemma startswith_app (p x : string) : Str.startswith p (p +:+ x) = true.
Proof.
  induction p as [|c p IH]; [done|]. rewrite str_app_cons. simpl.
  by rewrite Ascii.eqb_refl, IH.
Qed.

Lemma startswith_spec (p s : string) :
  Str.startswith p s = true ↔ ∃ x, s = p +:+ x.
Proof.
  split; [|intros [x ->]; apply startswith_app].
  revert s. induction p as [|c p IH]; intros s H; [by exists s|].
  destruct s as [|d s]; [done|]. simpl in H.
  apply andb_true_iff in H as [Hc Hp]. apply Ascii.eqb_eq in Hc as <-.
  destruct (IH _ Hp) as [x ->]. by exists x.
Qed.

Lemma relative_to_spec (dir p rel : string) :
  relative_to dir p = Some rel ↔ p = dir +:+ "/" +:+ rel.
Proof.
  unfold relative_to, below. split.
  - destruct (Str.startswith _ p) eqn:H; [|done].
    apply startswith_spec in H as [x ->]. intros [= <-].
    replace (String.length dir + 1) with (String.length (dir +:+ "/"))
      by (rewrite str_length_app; simpl; lia).
    by rewrite drop_app_length, str_app_assoc.
  - intros ->. rewrite <- str_app_assoc, startswith_app.
    replace (String.length dir + 1) with (String.length (dir +:+ "/"))
      by (rewrite str_length_app; simpl; lia).
    by rewrite drop_app_length.
Qed.

Lemma below_spec (dir p : string) :
  below dir p = true ↔ ∃ rel, p = dir +:+ "/" +:+ rel.
Proof.
  unfold below. rewrite startswith_spec.
  split; intros [x ->]; exists x; by rewrite str_app_assoc.
Qed.

Lemma below_join (dir rel : string) : below dir (dir +:+ "/" +:+ rel) = true.
Proof. apply below_spec. by exists rel. Qed.

Lemma archive_of_archive_entries (dir : string) (fs : gmap string file) :
  archive_of dir fs (archive_entries dir fs).
Proof.
  intros entry. unfold archive_entries. rewrite list_elem_of_omap. split.
  - intros ([p g] & Hin & Hg). apply elem_of_map_to_list in Hin. simpl in Hg.
    destruct (relative_to dir p) as [rel|] eqn:Hr; simplify_eq/=.
    apply relative_to_spec in Hr as ->. by exists rel, g.
  - intros (rel & f & Hf & ->). exists (dir +:+ "/" +:+ rel, f). split.
    + by apply elem_of_map_to_list.
    + simpl. by rewrite (proj2 (relative_to_spec dir _ rel) eq_refl).
Qed.

(** A file that is not below the directory does not show in its archive. *)
Lemma archive_of_insert_outside (dir p : string) (g : file) (fs : gmap string file)
    (zip : list (string * file)) :
  below dir p = false → archive_of dir (<[p := g]> fs) zip → archive_of dir fs zip.
Proof.
  intros Hp H entry. rewrite (H entry).
  split; intros (rel & f & Hf & ->); exists rel, f; split; try done.
  - rewrite lookup_insert_ne in Hf; [done|]. intros ->. by rewrite below_join in Hp.
  - rewrite lookup_insert_ne; [done|]. intros ->. by rewrite below_join in Hp.
Qed.

(** [rezip], step by step: the temporary file, the generated archive
    beside it, the move onto the archive, and the temporary file removed
    whether or not the move succeeded. *)
Lemma rezip_eq (P : platform) (self : OptionsWorker) (w : world) :
  let name := temp_name P (files w) in
  let fs1 := <[name := Data ""]> (files w) in
  let zip := archive_entries (temporary_directory self) fs1 in
  let fs2 := <[name +:+ ".zip" := Zip zip]> fs1 in
  let evs := events w ++ [ProgressUpdate "Recompressing (slow!)"] in
  rezip P self w
  = if can_replace P fs2 (name +:+ ".zip") (filename self)
       && negb (is_directory fs2 (filename self))
    then (Ok (),
          World (delete name
                   (<[filename self := Zip zip]> (delete (name +:+ ".zip") fs2)))
                evs)
    else (Raise (OSError ("Cannot replace " +:+ filename self)),
          World (delete name fs2) evs).
Proof.
  intros name fs1 zip fs2 evs.
  unfold rezip, update_progress, finally, make_archive, os_replace, write_file,
    remove_file.
  unfold mbind, M_bind, emit, get_files, put_files, mret, M_ret, raise.
  cbn -[archive_entries is_directory]. fold name. fold fs1. fold zip. fold fs2.
  assert (fs2 !! (name +:+ ".zip") = Some (Zip zip)) as -> by apply lookup_insert_eq.
  by destruct (can_replace P fs2 _ _ && negb (is_directory fs2 _)).
Qed.

(** When [rezip] succeeds the archive is the zip of the temporary
    directory as it stood when [rezip] was called. *)
Lemma rezip_archive (P : platform) (self : OptionsWorker) (w : world) :
  (rezip P self w).1 = Ok () →
  temp_name P (files w) ≠ filename self →
  below (temporary_directory self) (temp_name P (files w)) = false →
  ∃ zip, files (rezip P self w).2 !! filename self = Some (Zip zip)
         ∧ archive_of (temporary_directory self) (files w) zip.
Proof.
  rewrite rezip_eq. cbv zeta.
  destruct (can_replace P _ _ _ && negb _); [|done]. intros _ Hname Hout.
  eexists. cbn [snd files]. split.
  - rewrite lookup_delete_ne by done. apply lookup_insert_eq.
  - eapply archive_of_insert_outside; [exact Hout|]. apply archive_of_archive_entries.
Qed.

(** C1, as the code has it.  (1) What a run emits is an initial part of
    [expected_trace], and all of it when the run succeeds.  (2) With
    fix-icon selected the run is the icon fix, then [rezip] on the world the
    icon fix left, then [finish_run] (the installer block, if selected, and
    the success signal) on the world [rezip] left: a failure of the icon fix
    or of [rezip] ends the run there, and when [rezip] succeeds the archive
    is, before any step of the installer block, the zip of the temporary
    directory as the icon fix left it; the installer block does not change
    it when the archive is out of its reach.  (3) With fix-icon not selected
    the run is [finish_run] alone, in which nothing is repackaged, and the
    archive keeps what it held when it is out of reach of the installer
    block: the installer is saved under a path that is not the path of the
    archive, and the compiler leaves the archive alone. *)
Theorem OptionsWorker_run_repackages_once_after_icon_fix
    (P : platform) (self : OptionsWorker) (w : world) :
  let run := OptionsWorker_run P self w in
  let fixed :=
    fix_icon P (extracted_contents self) (log (ProgressUpdate "Fixing icon") w) in
  let repacked := rezip P self fixed.2 in
  (∃ exe ico new,
     events run.2 = events w ++ new
     ∧ new `prefix_of` expected_trace P self exe ico
     ∧ (run.1 = Ok () → new = expected_trace P self exe ico))
  ∧ (should_fix_icon self = true →
     (∀ e, fixed.1 = Raise e → run = (Raise e, fixed.2))
     ∧ (fixed.1 = Ok () →
        (∀ e, repacked.1 = Raise e → run = (Raise e, repacked.2))
        ∧ (repacked.1 = Ok () →
           run = finish_run P self repacked.2
           ∧ (temp_name P (files fixed.2) ≠ filename self →
              below (temporary_directory self) (temp_name P (files fixed.2)) = false →
              ∃ zip, files repacked.2 !! filename self = Some (Zip zip)
                     ∧ archive_of (temporary_directory self) (files fixed.2) zip)
           ∧ (archive_out_of_reach P self →
              files run.2 !! filename self = files repacked.2 !! filename self))))
  ∧ (should_fix_icon self = false →
     run = finish_run P self w
     ∧ (archive_out_of_reach P self →
        files run.2 !! filename self = files w !! filename self)).
Proof.
  intros run fixed repacked. split; [apply OptionsWorker_run_trace|].
  subst run. rewrite OptionsWorker_run_split. split; intros ->.
  - subst repacked. fold fixed.
    destruct fixed as [[[]|e] w1]; cbn [fst snd]; [|by split; [intros ? [= <-]|]].
    split; [done|]. intros _.
    pose proof (rezip_archive P self w1) as Harchive.
    destruct (rezip P self w1) as [[[]|e] w2]; cbn [fst snd] in *;
      [|by split; [intros ? [= <-]|]].
    split; [done|]. intros _. split_and!; [done|by apply Harchive|].
    intros Hreach. by apply finish_run_keeps_archive.
  - split; [done|]. intros Hreach. by apply finish_run_keeps_archive.
Qed.

Lemma OptionsWorker_run_repackages_once_after_icon_fix_witness :
  files (OptionsWorker_run Demo.platform
           (Demo.options_worker false true "C:/dl/demo Setup.exe")
           Demo.extracted).2 !! "C:/dl/demo.zip"
  = files Demo.extracted !! "C:/dl/demo.zip".
Proof.
  apply (proj2 (proj2 (OptionsWorker_run_repackages_once_after_icon_fix
                         Demo.platform
                         (Demo.options_worker false true "C:/dl/demo Setup.exe")
                         Demo.extracted))); [reflexivity|].
  split_and!.
  - by exists "C:/dl/demo".
  - by vm_compute.
  - intros fs. apply lookup_insert_ne. discriminate.
Defined.

(** The two complete runs of the scenarios of the specification. *)
Example OptionsWorker_run_both_options :
  events (OptionsWorker_run Demo.platform
            (Demo.options_worker true true "C:/dl/demo Setup.exe")
            (World (files Demo.extracted) [])).2
  = [ ProgressUpdate "Fixing icon";
      Spawn [ "C:/app/third-party/rcedit/rcedit-x86.exe";
              "C:/tmp/run/root/app.exe"; "--set-icon";
              "C:/tmp/run/root/icon.png.ico" ];
      ProgressUpdate "Recompressing (slow!)";
      ProgressUpdate "Creating installer (very slow!!)";
      Spawn [ "C:/app/third-party/inno/iscc.exe"; "C:/tmp/run/root/config.iss" ];
      Success ].
Proof. by vm_compute. Qed.

Example OptionsWorker_run_installer_only :
  events (OptionsWorker_run Demo.platform
            (Demo.options_worker false true "C:/dl/demo Setup.exe")
            (World (files Demo.extracted) [])).2
  = [ ProgressUpdate "Creating installer (very slow!!)";
      Spawn [ "C:/app/third-party/inno/iscc.exe"; "C:/tmp/run/root/config.iss" ];
      Success ].
Proof. by vm_compute. Qed.

(** With both options the archive holds the tree as the icon fix left it:
    the script and the installer, written afterwards, are not in it. *)
Example OptionsWorker_run_both_options_archive :
  files (OptionsWorker_run Demo.platform
           (Demo.options_worker true true "C:/dl/demo Setup.exe")
           Demo.extracted).2 !! "C:/dl/demo.zip"
  = Some (Zip [ ("root/icon.png.ico", Data "ICO:PNG");
                ("root/icon.png", Data "PNG");
                ("root/index.html", Data Demo.html);
                ("root/app.exe", Data "MZ+C:/tmp/run/root/icon.png.ico");
                ("root/resources.pak", Data "pak");
                ("root/package.json", Data Demo.manifest_text);
                ("root/", Directory) ]).
Proof. by vm_compute. Qed.

(** C1, as stated, fails: only create-installer is selected and the save
    dialog is answered with the path of the archive itself; the run succeeds
    without any recompression, and the archive file now holds the installer. *)
Lemma installer_saved_over_archive :
  let self := Demo.options_worker false true "C:/dl/demo.zip" in
  let run := OptionsWorker_run Demo.platform self Demo.extracted in
  should_fix_icon self = false
  ∧ should_create_installer self = true
  ∧ run.1 = Ok ()
  ∧ files Demo.extracted !! filename self = Some (Zip Demo.archive)
  ∧ files run.2 !! filename self = Some (Data "SETUP").
Proof. by vm_compute. Qed.
(** ** Repackaging *)

(** *** Names of entries *)

Lemma str_app_inj_tail (s s' t : string) : s +:+ t = s' +:+ t → s = s'.
Proof.
  revert s'. induction s as [|c s IH]; intros [|c' s'] H; [done| | |].
  - apply (f_equal String.length) in H. rewrite !str_length_app in H.
    simpl in H. lia.
  - apply (f_equal String.length) in H. rewrite !str_length_app in H.
    simpl in H. lia.
  - rewrite !str_app_cons in H. injection H as -> H. by rewrite (IH _ H).
Qed.

Lemma entry_of_inj (rel rel' : string) (f f' : file) :
  entry_of rel f = entry_of rel' f' → rel = rel' ∧ f = f'.
Proof.
  destruct f, f'; cbn [entry_of]; intros [= H1]; subst; try done.
  by apply str_app_inj_tail in H1 as ->.
Qed.

Lemma NoDup_archive_entries (dir : string) (fs : gmap string file) :
  NoDup (archive_entries dir fs).
Proof.
  unfold archive_entries.
  pose proof (NoDup_fst_map_to_list fs) as Hnd.
  induction (map_to_list fs) as [|[p f] l IH]; simpl; [constructor|].
  apply NoDup_cons in Hnd as [Hp Hnd].
  destruct (relative_to dir p) as [rel|] eqn:Hr; simpl; [|by apply IH].
  apply relative_to_spec in Hr as ->.
  apply NoDup_cons. split; [|by apply IH].
  intros Hin. apply Hp.
  apply list_elem_of_omap in Hin as ([p' g] & Hin & Hg). simpl in *.
  destruct (relative_to dir p') as [rel'|] eqn:Hr; simplify_eq/=.
  apply relative_to_spec in Hr as ->.
  apply entry_of_inj in Hg as [-> ->].
  apply list_elem_of_fmap. by exists (dir +:+ "/" +:+ rel, f).
Qed.

Lemma elem_of_ancestors (a s : string) :
  a ∈ ancestors s ↔ ∃ y, s = a +:+ "/" +:+ y.
Proof.
  revert a. induction s as [|c s IH]; intros a; cbn [ancestors].
  - split; [by intros ?%elem_of_nil|]. intros [y H]. by destruct a.
  - rewrite elem_of_app, list_elem_of_fmap. split.
    + intros [H|(a' & -> & H)].
      * destruct (Ascii.eqb_spec c "/") as [->|]; [|by apply elem_of_nil in H].
        apply list_elem_of_singleton in H as ->. by exists s.
      * apply IH in H as [y ->]. by exists y.
    + intros [y H]. destruct a as [|d a].
      * left. change ("" +:+ "/" +:+ y) with (String "/" y) in H.
        injection H as -> ->. rewrite Ascii.eqb_refl. by apply list_elem_of_singleton.
      * right. rewrite str_app_cons in H. injection H as -> ->.
        exists a. split; [done|]. apply IH. by exists y.
Qed.

(** What stands above a relative path is relative too. *)
Lemma ancestors_relative (a s : string) :
  a ∈ ancestors s → Str.startswith "/" s = false → Str.startswith "/" a = false.
Proof.
  intros [y ->]%elem_of_ancestors H. destruct a as [|c a]; [done|].
  by rewrite str_app_cons in H.
Qed.

Lemma split_app_sep (sep : ascii) (s t : string) :
  Str.split sep (s +:+ String sep t) = Str.split sep s ++ Str.split sep t.
Proof.
  induction s as [|c s IH].
  - change ("" +:+ String sep t) with (String sep t). cbn [Str.split].
    by rewrite Ascii.eqb_refl.
  - rewrite str_app_cons. cbn [Str.split]. rewrite IH.
    destruct (Ascii.eqb c sep); [done|].
    destruct (split_head sep s) as [tl ->]. done.
Qed.

(** The name of a directory entry is sanitized to the name of the
    directory. *)
Lemma sanitize_directory_entry (rel : string) :
  sanitize (rel +:+ "/") = sanitize rel.
Proof.
  unfold sanitize. change (rel +:+ "/") with (rel +:+ String "/" "").
  rewrite split_app_sep, filter_app.
  change (Str.split "/" "") with [""].
  rewrite filter_cons_False by (intros [? _]; done).
  by rewrite filter_nil, app_nil_r.
Qed.

Lemma clean_name_spec (name : string) :
  clean_name name = true
  ↔ sanitize name = name ∧ name ≠ "" ∧ Str.startswith "/" name = false
    ∧ Str.endswith "/" name = false.
Proof.
  unfold clean_name.
  rewrite !andb_true_iff, !negb_true_iff, String.eqb_eq, String.eqb_neq. tauto.
Qed.

Lemma tree_ok_spec (dir : string) (fs : gmap string file) (rel : string) (f : file) :
  tree_ok dir fs = true → fs !! (dir +:+ "/" +:+ rel) = Some f →
  clean_name rel = true
  ∧ ∀ above, above ∈ ancestors rel →
             fs !! (dir +:+ "/" +:+ above) = Some Directory.
Proof.
  unfold tree_ok. rewrite forallb_forall. intros H Hf.
  specialize (H (dir +:+ "/" +:+ rel, f)). simpl in H.
  rewrite (proj2 (relative_to_spec dir _ rel) eq_refl) in H.
  apply andb_true_iff in H as [Hc Ha].
  - split; [done|]. intros above Hin. rewrite forallb_forall in Ha.
    specialize (Ha above (proj1 (list_elem_of_In _ _) Hin)).
    by destruct (fs !! _) as [[]|].
  - apply list_elem_of_In. by apply elem_of_map_to_list.
Qed.

Lemma os_path_join_plain (dest a : string) :
  plain_dir dest = true → Str.startswith "/" a = false →
  os_path_join dest a = dest +:+ "/" +:+ a.
Proof.
  unfold plain_dir, os_path_join. rewrite andb_true_iff, !negb_true_iff.
  intros [-> ->] ->. done.
Qed.

Lemma has_below_spec (fs : gmap string file) (p : string) :
  has_below fs p = true ↔ ∃ k f, fs !! k = Some f ∧ below p k = true.
Proof.
  unfold has_below. rewrite existsb_exists. split.
  - intros ([k f] & Hin & Hb). exists k, f. split; [|done].
    by apply elem_of_map_to_list, list_elem_of_In.
  - intros (k & f & Hf & Hb). exists (k, f). split; [|done].
    by apply list_elem_of_In, elem_of_map_to_list.
Qed.

(** *** Extraction of the archive of a tree *)

Section RoundTrip.

Variables (dir dest : string) (fs : gmap string file).
Hypothesis dest_plain : plain_dir dest = true.
Hypothesis fs_ok : tree_ok dir fs = true.

Lemma ensure_directory_mirrors (rel : string) (m : gmap string file) (evs : list event) :
  mirrors dir dest fs m →
  fs !! (dir +:+ "/" +:+ rel) = Some Directory →
  ∃ m', ensure_directory (dest +:+ "/" +:+ rel) (World m evs) = (Ok (), World m' evs)
        ∧ mirrors dir dest fs m' ∧ m ⊆ m'
        ∧ m' !! (dest +:+ "/" +:+ rel) = Some Directory.
Proof.
  intros Hm Hd. unfold ensure_directory, mbind, M_bind, get_files, put_files.
  cbn [files events].
  destruct (m !! (dest +:+ "/" +:+ rel)) as [g|] eqn:Hg.
  - pose proof (Hm _ _ Hg) as Hg'. rewrite Hd in Hg'. injection Hg' as <-.
    exists m. by split_and!.
  - exists (<[dest +:+ "/" +:+ rel := Directory]> m). split_and!.
    + done.
    + intros rel' g. destruct (decide (rel' = rel)) as [->|Hne].
      * rewrite lookup_insert_eq. by intros [= <-].
      * rewrite lookup_insert_ne; [apply Hm|].
        intros E. by apply (inj (String.app dest)), (inj (String.app "/")) in E.
    + by apply insert_subseteq.
    + apply lookup_insert_eq.
Qed.

Lemma makedirs_mirrors (rels : list string) (m : gmap string file) (evs : list event) :
  mirrors dir dest fs m →
  Forall (λ a, Str.startswith "/" a = false
               ∧ fs !! (dir +:+ "/" +:+ a) = Some Directory) rels →
  ∃ m', makedirs (map (os_path_join dest) rels) (World m evs) = (Ok (), World m' evs)
        ∧ mirrors dir dest fs m' ∧ m ⊆ m'.
Proof.
  intros Hm Hrels. revert m Hm.
  induction Hrels as [|a rels [Ha Hd] _ IH]; intros m Hm.
  - exists m. by split_and!.
  - cbn [map makedirs]. rewrite os_path_join_plain by done.
    destruct (ensure_directory_mirrors a m evs Hm Hd) as (m1 & E1 & Hm1 & Hsub1 & _).
    destruct (IH m1 Hm1) as (m2 & E2 & Hm2 & Hsub2).
    exists m2. rewrite bind_eq, E1. split_and!; [done|done|].
    by transitivity m1.
Qed.

(** One entry of the archive of the tree is extracted without failure, to
    the place of what it stands for. *)
Lemma extract_member_mirrors (rel : string) (f : file) (m : gmap string file)
    (evs : list event) :
  mirrors dir dest fs m →
  fs !! (dir +:+ "/" +:+ rel) = Some f →
  ∃ m', extract_member dest (entry_of rel f) (World m evs) = (Ok (), World m' evs)
        ∧ mirrors dir dest fs m' ∧ m ⊆ m'
        ∧ m' !! (dest +:+ "/" +:+ rel) = Some f.
Proof.
  intros Hm Hf.
  destruct (tree_ok_spec dir fs rel f fs_ok Hf) as [Hclean Habove].
  apply clean_name_spec in Hclean as (Hsan & Hne & Hrel & Hend).
  assert (Forall (λ a, Str.startswith "/" a = false
                       ∧ fs !! (dir +:+ "/" +:+ a) = Some Directory)
            (ancestors rel)) as Hdirs.
  { apply Forall_forall. intros a Ha. split; [by eapply ancestors_relative|auto]. }
  destruct (makedirs_mirrors (ancestors rel) m evs Hm Hdirs) as (m1 & E1 & Hm1 & Hsub1).
  assert (String.eqb rel "" = false) as Hne' by by apply String.eqb_neq.
  unfold extract_member.
  destruct f as [content|filelist|]; cbn [entry_of fst snd stored].
  1, 2: rewrite Hsan, Hend, Hne', os_path_join_plain by done;
    rewrite bind_eq, E1; unfold mbind, M_bind, get_files, put_files, raise;
    cbn [files events orb];
    match goal with
    | |- context [is_directory ?m0 ?p] =>
        assert (is_directory m0 p = false) as ->
    end.
  1, 3: unfold is_directory;
    destruct (m1 !! (dest +:+ "/" +:+ rel)) as [g|] eqn:Hg;
    [apply Hm1 in Hg; rewrite Hf in Hg; by injection Hg as <-|];
    destruct (has_below m1 _) eqn:Hb; [|done];
    apply has_below_spec in Hb as (k & g & Hk & [x ->]%below_spec);
    rewrite !str_app_assoc in Hk; apply Hm1 in Hk;
    destruct (tree_ok_spec dir fs _ g fs_ok Hk) as [_ Hup];
    rewrite (Hup rel) in Hf; [done|];
    apply elem_of_ancestors; by exists x.
  1, 2: eexists; split_and!; [done| | |apply lookup_insert_eq].
  1, 3: intros rel' g; destruct (decide (rel' = rel)) as [->|Hrel'];
    [rewrite lookup_insert_eq; by intros [= <-]|];
    rewrite lookup_insert_ne; [apply Hm1|];
    intros E; by apply (inj (String.app dest)), (inj (String.app "/")) in E.
  1, 2: etransitivity; [exact Hsub1|];
    destruct (m1 !! (dest +:+ "/" +:+ rel)) as [g|] eqn:Hg;
    [pose proof (Hm1 _ _ Hg) as Hg'; rewrite Hf in Hg'; injection Hg' as <-;
     by rewrite insert_id
    |by apply insert_subseteq].
  rewrite sanitize_directory_entry, Hsan, Hne', os_path_join_plain by done.
  assert (Str.endswith "/" (rel +:+ "/") = true) as ->
    by (apply endswith_spec; by exists rel).
  rewrite bind_eq, E1.
  destruct (ensure_directory_mirrors rel m1 evs Hm1 Hf) as (m2 & E2 & Hm2 & Hsub2 & Hd).
  exists m2. split_and!; [done|done| |done]. by transitivity m1.
Qed.

(** All of it is: no member fails, and every entry is in its place. *)
Lemma extractall_mirrors (zip : list (string * file)) (m : gmap string file)
    (evs : list event) :
  mirrors dir dest fs m →
  Forall (λ entry, ∃ rel f, fs !! (dir +:+ "/" +:+ rel) = Some f
                            ∧ entry = entry_of rel f) zip →
  ∃ m', extractall zip dest (World m evs) = (Ok (), World m' evs)
        ∧ mirrors dir dest fs m' ∧ m ⊆ m'
        ∧ ∀ rel f, entry_of rel f ∈ zip → m' !! (dest +:+ "/" +:+ rel) = Some f.
Proof.
  intros Hm Hzip. revert m Hm.
  induction Hzip as [|entry zip (rel & f & Hf & ->) _ IH]; intros m Hm.
  - exists m. split_and!; [done|done|done|]. by intros ? ? ?%elem_of_nil.
  - destruct (extract_member_mirrors rel f m evs Hm Hf) as (m1 & E1 & Hm1 & Hsub1 & H1).
    destruct (IH m1 Hm1) as (m2 & E2 & Hm2 & Hsub2 & H2).
    exists m2. cbn [extractall]. rewrite bind_eq, E1. split_and!; [done|done| |].
    + by transitivity m1.
    + intros rel' f' [E|Hin]%elem_of_cons; [|by apply H2].
      apply entry_of_inj in E as [-> ->]. by eapply lookup_weaken.
Qed.

End RoundTrip.



(** The archive of the scenario, repackaged untouched and extracted anew. *)
Example rezip_then_extract :
  let self := Demo.options_worker true false "" in
  let repacked := (rezip Demo.platform self Demo.extracted).2 in
  (ExtractWorker_run {| ew_filename := "C:/dl/demo.zip"; ew_dest := "C:/tmp/again" |}
     (World {[ "C:/dl/demo.zip" := default (Data "") (files repacked !! "C:/dl/demo.zip") ]} [])).1
  = Ok "C:/tmp/again/root"
  ∧ length (archive_entries "C:/tmp/run" (files Demo.extracted)) = 6.
Proof. by vm_compute. Qed.

(** When the archive cannot be replaced, [rezip] fails; the archive is as
    it was, the temporary file is gone and the generated zip is left beside
    where it was. *)
Example rezip_across_volumes :
  let P := {| app_dir := "C:/app"; listdir := children;
              json_loads := json_loads Demo.platform;
              image_to_ico := image_to_ico Demo.platform;
              run_process := Demo.tool;
              temp_name := λ _, "D:/tmp/tmpa";
              can_start := λ _ _, true;
              can_replace := λ _ _ _, false;
              failed_save := λ _, None |} in
  let after := rezip P (Demo.options_worker true false "") Demo.extracted in
  after.1 = Raise (OSError "Cannot replace C:/dl/demo.zip")
  ∧ files after.2 !! "C:/dl/demo.zip" = Some (Zip Demo.archive)
  ∧ files after.2 !! "D:/tmp/tmpa" = None
  ∧ files after.2 !! "D:/tmp/tmpa.zip" ≠ None.
Proof. vm_compute. by split_and!. Qed.


(** * Further properties of the code *)

(** ** Escaping *)

Lemma count_flat_map_zero (c : ascii) (f : ascii → string) (s : string) :
  (∀ d, Str.count c (f d) = 0) → Str.count c (Str.flat_map f s) = 0.
Proof.
  intros H. induction s as [|d s IH]; [done|].
  simpl. by rewrite count_app, H, IH.
Qed.

(** X1: the output of [escape_html] holds none of the characters it
    escapes but the ampersand, and exactly one ampersand for each character
    of the input that it escapes. *)
Theorem escape_html_leaves_no_markup (s : string) :
  Str.count "<" (escape_html s) = 0
  ∧ Str.count ">" (escape_html s) = 0
  ∧ Str.count "'" (escape_html s) = 0
  ∧ Str.count dquote (escape_html s) = 0
  ∧ Str.count "&" (escape_html s)
    = Str.count "&" s + Str.count "<" s + Str.count ">" s
      + Str.count "'" s + Str.count dquote s.
Proof.
  rewrite escape_html_flat_map. split_and!;
    try (apply count_flat_map_zero; intros d; each_char d).
  induction s as [|d s IH]; [done|].
  cbn [Str.flat_map]. rewrite count_app, IH.
  assert (Str.count "&" (html_entity d)
          = Str.count "&" (String d "") + Str.count "<" (String d "")
            + Str.count ">" (String d "") + Str.count "'" (String d "")
            + Str.count dquote (String d "")) as -> by each_char d.
  cbn [Str.count]. lia.
Qed.

(** X2: [escape_html] works piece by piece: the escape of a concatenation
    is the concatenation of the escapes, and it never shortens its input. *)
Theorem escape_html_app (s t : string) :
  escape_html (s +:+ t) = escape_html s +:+ escape_html t
  ∧ String.length s ≤ String.length (escape_html s).
Proof.
  rewrite !escape_html_flat_map. split; [apply flat_map_app|].
  induction s as [|d s IH]; [done|].
  cbn [Str.flat_map]. rewrite str_length_app.
  assert (1 ≤ String.length (html_entity d))
    by (destruct d as [[] [] [] [] [] [] [] []]; vm_compute; lia).
  simpl. lia.
Qed.

(** ** The root directory of an archive *)

Lemma split_first_spec (sep : ascii) (s : string) :
  Str.count sep (Str.split_first sep s).1 = 0
  ∧ s = (Str.split_first sep s).1
        +:+ match (Str.split_first sep s).2 with
            | Some rest => String sep rest
            | None => ""
            end.
Proof.
  induction s as [|c s [IH1 IH2]]; [done|]. cbn [Str.split_first].
  destruct (Ascii.eqb c sep) eqn:Hc.
  - apply Ascii.eqb_eq in Hc as ->. done.
  - destruct (Str.split_first sep s) as [h t]. cbn [fst snd Str.count] in *.
    rewrite Ascii.eqb_sym, Hc, IH1. split; [done|].
    rewrite str_app_cons. by rewrite <- IH2.
Qed.

(** X3: [get_zip_inner_folder_name] fails only on an archive with no
    entry; otherwise its result holds no separator and the name of the first
    entry is that result, alone or followed by a separator and more. *)
Theorem get_zip_inner_folder_name_is_first_segment (zip : list (string * file)) :
  match get_zip_inner_folder_name zip with
  | Ok root =>
      ∃ info rest,
        zip = info :: rest
        ∧ Str.count "/" root = 0
        ∧ (info.1 = root ∨ ∃ tail, info.1 = root +:+ "/" +:+ tail)
  | Raise e => zip = [] ∧ e = IndexError "list index out of range"
  end.
Proof.
  destruct zip as [|info rest]; [done|].
  rewrite get_zip_inner_folder_name_cons. exists info, rest.
  unfold leading_segment.
  destruct (split_first_spec "/" info.1) as [H1 H2].
  split_and!; [done|done|].
  destruct (Str.split_first "/" info.1) as [h [t|]]; cbn [fst snd] in *.
  - right. by exists t.
  - left. by rewrite str_app_nil_r in H2.
Qed.

(** ** The installer script *)

Lemma escape_inno_value_no_quote (s : string) :
  Str.count dquote (escape_inno_value s) = 0.
Proof.
  rewrite escape_inno_value_flat_map. apply count_flat_map_zero.
  intros d. each_char d.
Qed.

(** X6: whatever the title, the package name, the executable name and the
    icon path are, the installer script has the same 24 double quotes: the
    ones of its template.  No value can open or close a quoted field. *)
Theorem inno_config_quotes_fixed
    (title package_name executable_file version : string)
    (output_directory output_name icon : string) :
  Str.count dquote
    (inno_config title package_name executable_file version
       output_directory output_name icon) = 24.
Proof.
  pose proof (escape_inno_value_no_quote title) as H1.
  pose proof (escape_inno_value_no_quote package_name) as H2.
  pose proof (escape_inno_value_no_quote executable_file) as H3.
  pose proof (escape_inno_value_no_quote version) as H4.
  pose proof (escape_inno_value_no_quote output_directory) as H5.
  pose proof (escape_inno_value_no_quote output_name) as H6.
  pose proof (escape_inno_value_no_quote icon) as H7.
  unfold inno_config, quoted. cbn [Str.join].
  repeat first [ rewrite count_app | rewrite str_app_cons | progress cbn [Str.count] ].
  rewrite H1, H2, H3, H4, H5, H6, H7. reflexivity.
Qed.

(** ** Steps that fail before they change anything *)

Lemma get_executable_name_none (P : platform) (path : string) (w : world)
    (listing : list string) :
  listdir P (files w) path = Some listing →
  Forall (λ g, ¬ qualifies g) listing →
  get_executable_name P path w = (Raise (Exception "Cannot find executable"), w).
Proof.
  intros Hl Hq. apply first_executable_None in Hq.
  unfold get_executable_name, mbind, M_bind, get_files. simpl. by rewrite Hl, Hq.
Qed.

(** X8: in a directory with no qualifying executable both the icon step
    and the installer step stop at once with
    [Exception('Cannot find executable')]: no icon is converted, no script
    is written and no program is started. *)
Theorem no_executable_stops_both_steps
    (P : platform) (path : string) (w : world) (listing : list string) :
  listdir P (files w) path = Some listing →
  Forall (λ g, ¬ qualifies g) listing →
  fix_icon P path w = (Raise (Exception "Cannot find executable"), w)
  ∧ create_installer P path w = (Raise (Exception "Cannot find executable"), w).
Proof.
  intros Hl Hq. pose proof (get_executable_name_none P path w listing Hl Hq) as H.
  unfold fix_icon, create_installer, mbind, M_bind. by rewrite H.
Qed.

(** X9: when the executable and the manifest name are there but the
    entry document has no [<title>], [create_installer] fails before it
    converts the icon or writes the script: the files and the events are
    exactly as before. *)
Theorem create_installer_without_title_changes_nothing
    (P : platform) (path exe text contents : string) (j name : json) (w : world) :
  get_executable_name P path w = (Ok exe, w) →
  files w !! os_path_join path "package.json" = Some (Data text) →
  json_loads P text = Some j →
  py_getitem j "name" = Ok name →
  files w !! os_path_join path "index.html" = Some (Data contents) →
  Str.contains "<title>" contents = false →
  create_installer P path w
  = (Raise (AttributeError "'NoneType' object has no attribute 'group'"), w).
Proof.
  intros Hexe Hf Hj Hname Hhtml Htitle.
  unfold create_installer, mbind at 1, M_bind at 1. rewrite Hexe.
  unfold mbind at 1, M_bind at 1.
  rewrite (parse_package_json_ok _ _ _ _ _ Hf Hj).
  unfold mbind at 1, M_bind at 1, lift at 1. rewrite Hname.
  unfold mbind at 1, M_bind at 1.
  unfold get_project_title, mbind at 1, M_bind at 1.
  rewrite (read_text_data _ _ _ Hhtml).
  unfold lift, project_title_of.
  by rewrite re_search_title_absent by by apply universal_newlines_no_title.
Qed.

Lemma no_executable_stops_both_steps_witness :
  fix_icon Demo.platform "C:/tmp/run/root" Scenario.without_executable
  = (Raise (Exception "Cannot find executable"), Scenario.without_executable).
Proof.
  refine (proj1 (no_executable_stops_both_steps Demo.platform "C:/tmp/run/root"
                   Scenario.without_executable
                   ["notification_helper.exe"; "resources.pak"] eq_refl _)).
  repeat constructor; intros H%is_executable_spec; discriminate H.
Defined.

Lemma create_installer_without_title_changes_nothing_witness :
  create_installer Demo.platform "C:/tmp/run/root" Demo.extracted_untitled
  = (Raise (AttributeError "'NoneType' object has no attribute 'group'"),
     Demo.extracted_untitled).
Proof.
  apply (create_installer_without_title_changes_nothing Demo.platform
           "C:/tmp/run/root" "app.exe" Demo.manifest_text "<html></html>"
           Demo.manifest (JString "demo") Demo.extracted_untitled);
    reflexivity.
Defined.

(** ** What the archive steps write *)

(** X10: whatever its outcome, [rezip] touches at most three paths, the
    archive, its temporary file and the generated [.zip] beside it, and the
    temporary file is never left behind.  When it succeeds the generated
    [.zip] is gone too and the archive is a zip; when it fails the archive is
    what it was. *)
Theorem rezip_changes_only_the_archive
    (P : platform) (self : OptionsWorker) (w : world) :
  let name := temp_name P (files w) in
  let after := files (rezip P self w).2 in
  (∀ q, q ≠ filename self → q ≠ name → q ≠ name +:+ ".zip" →
        after !! q = files w !! q)
  ∧ after !! name = None
  ∧ ((rezip P self w).1 = Ok () →
     (name +:+ ".zip" ≠ filename self → after !! (name +:+ ".zip") = None)
     ∧ (name ≠ filename self → ∃ zip, after !! filename self = Some (Zip zip)))
  ∧ (∀ e, (rezip P self w).1 = Raise e →
          filename self ≠ name → filename self ≠ name +:+ ".zip" →
          after !! filename self = files w !! filename self).
Proof.
  intros name after. subst after. rewrite rezip_eq. fold name. cbv zeta.
  destruct (can_replace P _ _ _ && negb _); cbn [fst snd files]; split_and!.
  - intros q H1 H2 H3.
    rewrite lookup_delete_ne, lookup_insert_ne, lookup_delete_ne,
      lookup_insert_ne, lookup_insert_ne by done. done.
  - apply lookup_delete_eq.
  - intros _. split.
    + intros H. destruct (decide (name = name +:+ ".zip")) as [E|E].
      * rewrite <- E at 1. apply lookup_delete_eq.
      * rewrite lookup_delete_ne, lookup_insert_ne by done. apply lookup_delete_eq.
    + intros H. eexists. rewrite lookup_delete_ne by done. apply lookup_insert_eq.
  - done.
  - intros q H1 H2 H3.
    rewrite lookup_delete_ne, lookup_insert_ne, lookup_insert_ne by done. done.
  - apply lookup_delete_eq.
  - done.
  - intros e _ H1 H2.
    rewrite lookup_delete_ne, lookup_insert_ne, lookup_insert_ne by done. done.
Qed.

Lemma split_no_sep (sep : ascii) (s : string) :
  Forall (λ x, Str.count sep x = 0) (Str.split sep s).
Proof.
  induction s as [|c s IH]; [by repeat constructor|]. cbn [Str.split].
  destruct (Ascii.eqb c sep) eqn:Hc; [by constructor|].
  destruct (Str.split sep s) as [|h t].
  - repeat constructor. cbn [Str.count]. by rewrite Ascii.eqb_sym, Hc.
  - apply Forall_cons in IH as [Hh Ht]. constructor; [|done].
    cbn [Str.count]. by rewrite Ascii.eqb_sym, Hc, Hh.
Qed.

(** A sanitized member name is relative: it does not begin with the
    separator. *)
Lemma sanitize_relative (name : string) :
  Str.startswith "/" (sanitize name) = false.
Proof.
  unfold sanitize.
  pose proof (split_no_sep "/" name) as H.
  assert (Forall (λ x, Str.count "/" x = 0 ∧ x ≠ "")
            (filter (λ x, x ≠ "" ∧ x ≠ "." ∧ x ≠ "..") (Str.split "/" name))) as Hf.
  { apply Forall_forall. intros x [Hx Hin]%list_elem_of_filter.
    split; [|by destruct Hx]. by eapply Forall_forall in H. }
  destruct Hf as [|x l [Hc Hx] Hl]; [done|].
  destruct x as [|c x]; [done|].
  cbn [Str.count] in Hc.
  destruct (Ascii.eqb "/" c) eqn:E; [lia|].
  destruct l; cbn [Str.join]; rewrite ?str_app_cons; cbn [Str.startswith];
    by rewrite E.
Qed.

Lemma keeps_ensure_directory (q p : string) :
  p ≠ q → respects (keeps q) (ensure_directory p).
Proof.
  intros Hp w. unfold keeps, ensure_directory, mbind, M_bind, get_files. simpl.
  destruct (files w !! p) as [[]|]; simpl; try done. by rewrite lookup_insert_ne.
Qed.

Lemma keeps_makedirs (q : string) (dirs : list string) :
  Forall (λ p, p ≠ q) dirs → respects (keeps q) (makedirs dirs).
Proof.
  induction 1 as [|p dirs Hp _ IH]; [done|]. cbn [makedirs].
  apply keeps_bind; [by apply keeps_ensure_directory|done].
Qed.

(** A member is extracted below the destination, whatever its name. *)
Lemma keeps_extract_member (dest q : string) (member : string * file) :
  plain_dir dest = true → below dest q = false →
  respects (keeps q) (extract_member dest member).
Proof.
  intros Hd Hq. unfold extract_member.
  assert (∀ a, Str.startswith "/" a = false → os_path_join dest a ≠ q) as Hout.
  { intros a Ha. rewrite os_path_join_plain by done. intros <-.
    by rewrite below_join in Hq. }
  pose proof (sanitize_relative member.1) as Hrel.
  apply keeps_bind.
  { apply keeps_makedirs, Forall_forall. intros p (a & -> & Ha)%list_elem_of_fmap.
    apply Hout. by eapply ancestors_relative. }
  intros _. destruct (Str.endswith "/" member.1).
  - destruct (String.eqb _ ""); [done|]. by apply keeps_ensure_directory, Hout.
  - intros w. unfold keeps, mbind, M_bind, get_files, put_files, raise. simpl.
    destruct (String.eqb _ "" || is_directory _ _); simpl; [done|].
    rewrite lookup_insert_ne; [done|]. by apply Hout.
Qed.

Lemma keeps_extractall (dest q : string) (zip : list (string * file)) :
  plain_dir dest = true → below dest q = false →
  respects (keeps q) (extractall zip dest).
Proof.
  intros Hd Hq. induction zip as [|member zip IH]; [done|]. cbn [extractall].
  apply keeps_bind; [by apply keeps_extract_member|done].
Qed.

(** The three steps after the archive is opened write nothing. *)
Lemma ExtractWorker_run_files (ew : ExtractWorker) (w : world) :
  files (ExtractWorker_run ew w).2
  = match files w !! ew_filename ew with
    | Some (Zip zip) => files (extractall zip (ew_dest ew) w).2
    | _ => files w
    end.
Proof.
  destruct (files w !! ew_filename ew) as [[content|zip|]|] eqn:Hf.
  2: { rewrite (ExtractWorker_run_eq ew w zip Hf).
       destruct (extractall zip (ew_dest ew) w) as [[[]|e] w1]; [|done].
       destruct zip as [|info rest]; [done|]. cbv zeta.
       by destruct (exists_in _ _). }
  all: unfold ExtractWorker_run, open_zip, mbind, M_bind, get_files; simpl;
    by rewrite Hf.
Qed.

(** X11: whatever the archive holds, and whether or not it can be opened
    at all, [ExtractWorker._run] leaves every path that is not below its
    destination directory as it was: member names cannot lead out of it. *)
Theorem ExtractWorker_run_writes_below_dest
    (ew : ExtractWorker) (w : world) (q : string) :
  plain_dir (ew_dest ew) = true →
  below (ew_dest ew) q = false →
  files (ExtractWorker_run ew w).2 !! q = files w !! q.
Proof.
  intros Hd Hq. rewrite ExtractWorker_run_files.
  destruct (files w !! ew_filename ew) as [[content|zip|]|]; try done.
  by apply keeps_extractall.
Qed.

Lemma ExtractWorker_run_writes_below_dest_witness :
  files (ExtractWorker_run Demo.extract_worker Demo.selected).2 !! "C:/dl/demo.zip"
  = files Demo.selected !! "C:/dl/demo.zip".
Proof.
  apply (ExtractWorker_run_writes_below_dest Demo.extract_worker Demo.selected
           "C:/dl/demo.zip"); reflexivity.
Defined.

(** A member name that tries to climb out of the destination. *)
Example extract_member_drops_parent_components :
  map_to_list
    (files (extract_member "C:/tmp/run" ("../../Windows/evil.exe", Data "MZ")
              (World ∅ [])).2)
  = [("C:/tmp/run/Windows/evil.exe", Data "MZ");
     ("C:/tmp/run/Windows", Directory)].
Proof. by vm_compute. Qed.

(** ** The end of a run and the guards of the Continue button *)



(** When the file browser cannot be started the exception leaves the slot:
    the run is neither cleaned up nor removed. *)
Example worker_finished_without_explorer :
  let P := {| app_dir := "C:/app"; listdir := children;
              json_loads := json_loads Demo.platform;
              image_to_ico := image_to_ico Demo.platform;
              run_process := Demo.tool;
              temp_name := temp_name Demo.platform;
              can_start := λ _ _, false;
              can_replace := λ _ _ _, true;
              failed_save := λ _, None |} in
  worker_finished P Demo.ready_widget (World (files Demo.extracted) [])
  = (Demo.ready_widget,
     World (files Demo.extracted) [SuccessDialog "Success"]).
Proof. by vm_compute. Qed.

(** X13: with neither box checked, or with create-installer checked and
    the save dialog dismissed, [click] starts no worker: no file changes,
    the only events are the start and end of the process and the error
    dialog, and the controls are visible again. *)
Theorem click_guards_start_nothing
    (P : platform) (fix_icon_checked create_installer_checked : bool)
    (chosen extracted : string) (self : ProjectOptionsWidget) (w : world) :
  w_extracted_contents self = Some extracted →
  (fix_icon_checked = false ∧ create_installer_checked = false)
  ∨ (create_installer_checked = true ∧ chosen = "") →
  let after := click P fix_icon_checked create_installer_checked chosen self w in
  files after.2 = files w
  ∧ events after.2
    = events w
      ++ [ProcessStarted; ProcessEnded;
          ErrorDialog (if negb fix_icon_checked && negb create_installer_checked
                       then "You have to check at least one of the boxes"
                       else "No file selected")]
  ∧ controls after.1 = match controls self with Some _ => Some true | None => None end
  ∧ progress_widget after.1 = false
  ∧ w_extracted_contents after.1 = Some extracted.
Proof.
  intros Hext Hguard after. subst after. unfold click. rewrite Hext.
  destruct Hguard as [[-> ->]|[-> ->]].
  - cbn. rewrite <- !app_assoc. by destruct (controls self).
  - destruct fix_icon_checked; cbn; rewrite <- !app_assoc;
      by destruct (controls self).
Qed.

Lemma click_guards_start_nothing_witness :
  files (click Demo.platform false false "" Demo.ready_widget Demo.extracted).2
  = files Demo.extracted.
Proof.
  refine (proj1 (click_guards_start_nothing Demo.platform false false ""
                   "C:/tmp/run/root" Demo.ready_widget Demo.extracted _ _)).
  - reflexivity.
  - by left.
Defined.

(** ** The main window *)

(** X14: while a project is open, selecting or dropping further files
    opens nothing: the project the window holds stays the same, no file
    changes, and all that happens is the error dialog of the guard, once for
    each attempt that gets as far as [on_file_selected]. *)
Theorem one_project_at_a_time
    (self : MainWindow) (widget : ProjectOptionsWidget)
    (actions : list file_action) (w : world) :
  configure_widget self = Some widget →
  let after := foldl file_action_step (self, w) actions in
  after.1 = self
  ∧ files after.2 = files w
  ∧ ∃ n, n ≤ length actions
         ∧ events after.2
           = events w ++ replicate n (ErrorDialog "Already have a file open").
Proof.
  intros Hopen. cbv zeta. revert w.
  induction actions as [|a actions IH]; intros w.
  - cbn. split_and!; [done|done|]. exists 0. by rewrite app_nil_r.
  - cbn [foldl]. unfold file_action_step at 2 4 6. cbn [fst snd].
    assert (∃ k, k ≤ 1
                 ∧ match a with
                   | Select file temp_dir => on_file_selected file temp_dir self w
                   | Drop file temp_dir => dropEvent file temp_dir self w
                   end
                   = (self, World (files w)
                              (events w ++ replicate k
                                 (ErrorDialog "Already have a file open"))))
      as (k & Hk & ->).
    { unfold dropEvent, on_file_selected. rewrite Hopen.
      destruct a as [file temp_dir|file temp_dir].
      - by exists 1.
      - destruct (is_process_ongoing self).
        + exists 0. split; [lia|]. cbn. rewrite app_nil_r. by destruct w.
        + by exists 1. }
    destruct (IH (World (files w)
                    (events w ++ replicate k
                       (ErrorDialog "Already have a file open"))))
      as (H1 & H2 & n & Hn & H3).
    split_and!; [done|done|]. exists (k + n). split; [cbn; lia|].
    rewrite H3. cbn [events]. by rewrite <- app_assoc, replicate_add.
Qed.

Lemma one_project_at_a_time_witness :
  (foldl file_action_step
     (Window (Some Demo.ready_widget) false false, Demo.extracted)
     [Select "C:/dl/other.zip" "C:/tmp/run2"; Drop "C:/dl/third.zip" "C:/tmp/run3"]).1
  = Window (Some Demo.ready_widget) false false.
Proof.
  apply (one_project_at_a_time (Window (Some Demo.ready_widget) false false)
           Demo.ready_widget
           [Select "C:/dl/other.zip" "C:/tmp/run2"; Drop "C:/dl/third.zip" "C:/tmp/run3"]
           Demo.extracted).
  reflexivity.
Defined.

Lemma silent_ensure_directory (p : string) : respects silent (ensure_directory p).
Proof.
  intros w. unfold silent, ensure_directory, mbind, M_bind, get_files. simpl.
  by destruct (files w !! p) as [[]|].
Qed.

Lemma silent_extractall (zip : list (string * file)) (dest : string) :
  respects silent (extractall zip dest).
Proof.
  induction zip as [|member zip IH]; [done|]. cbn [extractall].
  apply silent_bind; [|done]. unfold extract_member.
  apply silent_bind.
  { induction (map _ _) as [|p dirs IHd]; [done|]. cbn [makedirs].
    apply silent_bind; [apply silent_ensure_directory|done]. }
  intros _. destruct (Str.endswith "/" member.1).
  - destruct (String.eqb _ ""); [done|apply silent_ensure_directory].
  - apply silent_bind; [done|]. intros fs.
    by destruct (String.eqb _ "" || is_directory fs _).
Qed.

Lemma ExtractWorker_run_events (ew : ExtractWorker) (w : world) :
  events (ExtractWorker_run ew w).2
  = events w ++ match (ExtractWorker_run ew w).1 with
                | Ok root => [Extracted root]
                | Raise _ => []
                end.
Proof.
  destruct (files w !! ew_filename ew) as [[content|zip|]|] eqn:Hf.
  2: { rewrite (ExtractWorker_run_eq ew w zip Hf).
       pose proof (silent_extractall zip (ew_dest ew) w) as Hs. unfold silent in Hs.
       destruct (extractall zip (ew_dest ew) w) as [[[]|e] w1]; simpl in *;
         [|by rewrite app_nil_r].
       destruct zip as [|info rest]; [simpl; by rewrite app_nil_r|].
       destruct (exists_in _ _); simpl; [by rewrite Hs|by rewrite app_nil_r]. }
  all: unfold ExtractWorker_run, open_zip, mbind, M_bind, get_files; simpl;
    rewrite Hf; simpl; by rewrite app_nil_r.
Qed.

(** X15: a file selected at an idle window is opened, and when its extract
    worker reports the window is no longer busy.  If the extraction
    succeeded the project stays open with its option controls on screen; if
    it failed the window is back where it started, with the select button
    shown, no project, and nothing left below the temporary directory. *)
Theorem extraction_ends_ready_or_idle
    (file temp_dir : string) (self : MainWindow) (w : world) :
  configure_widget self = None →
  let opened := on_file_selected file temp_dir self w in
  let ew := {| ew_filename := file; ew_dest := temp_dir |} in
  let reported := extract_worker_reports opened.1 opened.2 in
  is_process_ongoing opened.1 = true
  ∧ opened.2 = w
  ∧ match ExtractWorker_run ew w with
    | (Ok root, _) =>
        reported.1
        = Ok (Window (Some (Widget file temp_dir (Some root) (Some true) false None))
                false false)
    | (Raise e, _) =>
        reported.1 = Ok (Window None false true)
        ∧ (∀ p, below temp_dir p = true → files reported.2 !! p = None)
        ∧ ErrorDialog (exn_str e) ∈ events reported.2
    end.
Proof.
  intros Hidle opened ew reported. subst opened reported.
  unfold on_file_selected. rewrite Hidle. cbn [fst snd].
  split_and!; [done|done|].
  unfold extract_worker_reports. cbn [configure_widget is_process_ongoing
                                      select_widget_shown].
  unfold run_extract_worker. cbn [w_filename w_temporary_directory]. fold ew.
  pose proof (ExtractWorker_run_events ew w) as He.
  destruct (ExtractWorker_run ew w) as [[root|e] w']; cbn [fst snd] in He.
  - unfold finished_extract, log. cbn [events]. rewrite He, <- app_assoc.
    rewrite list.drop_app_length. done.
  - unfold extract_worker_error, worker_error, cleanup, remove, display_error, log,
      TemporaryDirectory_cleanup.
    cbn [fst snd files events]. rewrite He, app_nil_r, <- !app_assoc.
    rewrite list.drop_app_length. split_and!; [done| |].
    + intros p Hp. by apply cleanup_below.
    + set_solver.
Qed.

Lemma extraction_ends_ready_or_idle_witness :
  (extract_worker_reports
     (on_file_selected "C:/dl/demo.zip" "C:/tmp/run" Scenario.idle
        Demo.selected_without_marker).1
     Demo.selected_without_marker).1
  = Ok Scenario.idle.
Proof.
  pose proof (extraction_ends_ready_or_idle "C:/dl/demo.zip" "C:/tmp/run"
                Scenario.idle Demo.selected_without_marker eq_refl)
    as (_ & _ & H).
  exact (proj1 H).
Defined.

(** The same window with the archive of the scenario. *)
Example extraction_succeeds_and_project_stays :
  (extract_worker_reports
     (on_file_selected "C:/dl/demo.zip" "C:/tmp/run" Scenario.idle Demo.selected).1
     Demo.selected).1
  = Ok (Window (Some (Widget "C:/dl/demo.zip" "C:/tmp/run" (Some "C:/tmp/run/root")
                        (Some true) false None))
          false false).
Proof. by vm_compute. Qed.

(** ** What the two steps write themselves *)

(** X16: the icon step writes a single file of its own, the converted
    icon: a path that does not end with [.ico] and that the icon tool leaves
    alone keeps its file, whatever the outcome of the step. *)
Theorem fix_icon_writes_only_the_icon
    (P : platform) (path q : string) (w : world) :
  ¬ has_suffix ".ico" q →
  (∀ args fs, (run_process P args fs).2 !! q = fs !! q) →
  files (fix_icon P path w).2 !! q = files w !! q.
Proof.
  intros Hico Hrun. revert w. change (respects (keeps q) (fix_icon P path)).
  unfold fix_icon.
  apply keeps_bind;
    [apply respects_get_executable_name; [apply keeps_refl|apply keeps_trans]|].
  intros exe. apply keeps_bind.
  { apply respects_get_icon_as_ico; [apply keeps_refl|apply keeps_trans| |].
    - intros source ico. apply keeps_write_file. intros <-.
      apply Hico, has_suffix_app, has_suffix_refl.
    - intros source. apply keeps_remove_file. intros <-.
      apply Hico, has_suffix_app, has_suffix_refl. }
  intros icon. apply keeps_bind; [by apply keeps_run_command|]. done.
Qed.

Lemma fix_icon_writes_only_the_icon_witness :
  files (fix_icon Scenario.quiet_platform "C:/tmp/run/root" Demo.extracted).2
    !! "C:/dl/demo.zip"
  = files Demo.extracted !! "C:/dl/demo.zip".
Proof.
  apply (fix_icon_writes_only_the_icon Scenario.quiet_platform "C:/tmp/run/root"
           "C:/dl/demo.zip" Demo.extracted).
  - apply (has_suffix_disjoint ".zip" ".ico"); [reflexivity|discriminate|].
    by exists "C:/dl/demo".
  - reflexivity.
Defined.

(** X17: the installer step writes two files of its own, the converted
    icon and [config.iss]: a path that ends with neither [.ico] nor [.iss]
    and that the compiler leaves alone keeps its file, whatever the outcome
    of the step. *)
Theorem create_installer_writes_icon_and_script
    (P : platform) (path q : string) (w : world) :
  ¬ has_suffix ".ico" q → ¬ has_suffix ".iss" q →
  (∀ args fs, (run_process P args fs).2 !! q = fs !! q) →
  files (create_installer P path w).2 !! q = files w !! q.
Proof.
  intros Hico Hiss Hrun.
  apply (keeps_create_installer P path q Hico Hiss). intros fs. apply Hrun.
Qed.

Lemma create_installer_writes_icon_and_script_witness :
  files (create_installer Scenario.quiet_platform "C:/tmp/run/root" Demo.extracted).2
    !! "C:/tmp/run/root/app.exe"
  = files Demo.extracted !! "C:/tmp/run/root/app.exe".
Proof.
  apply (create_installer_writes_icon_and_script Scenario.quiet_platform
           "C:/tmp/run/root" "C:/tmp/run/root/app.exe" Demo.extracted).
  - apply (has_suffix_disjoint ".exe" ".ico"); [reflexivity|discriminate|].
    by exists "C:/tmp/run/root/app".
  - apply (has_suffix_disjoint ".exe" ".iss"); [reflexivity|discriminate|].
    by exists "C:/tmp/run/root/app".
  - reflexivity.
Defined.

(** ** The archive after a fix-icon run *)

(** X18: at the end of a successful run with only fix-icon selected the
    archive and the temporary directory agree: the archive is a zip with
    exactly one entry for each file and each directory below the directory,
    under its relative name and, for a file, with its contents.  The
    temporary file of [rezip] and the archive itself are taken to lie
    outside that directory. *)
Theorem fix_icon_run_leaves_archive_matching_tree
    (P : platform) (self : OptionsWorker) (w w' : world) :
  should_fix_icon self = true →
  should_create_installer self = false →
  (∀ fs, below (temporary_directory self) (temp_name P fs) = false) →
  (∀ fs, below (temporary_directory self) (temp_name P fs +:+ ".zip") = false) →
  (∀ fs, temp_name P fs ≠ filename self) →
  below (temporary_directory self) (filename self) = false →
  OptionsWorker_run P self w = (Ok (), w') →
  ∃ zip,
    files w' !! filename self = Some (Zip zip)
    ∧ NoDup zip
    ∧ archive_of (temporary_directory self) (files w') zip.
Proof.
  intros Hfix Hinst Htmp Htmpzip Hname Harchive Hrun.
  rewrite OptionsWorker_run_split, Hfix in Hrun.
  destruct (fix_icon P _ _) as [[[]|e] w1]; [|done].
  rewrite rezip_eq in Hrun. cbv zeta in Hrun.
  destruct (can_replace P _ _ _ && negb _); [|done].
  unfold finish_run in Hrun. rewrite Hinst in Hrun.
  unfold mbind, M_bind, mret, M_ret, emit in Hrun.
  cbn [fst snd files events] in Hrun. injection Hrun as <-.
  set (dir := temporary_directory self) in *.
  set (name := temp_name P (files w1)).
  set (zip := archive_entries dir (<[name := Data ""]> (files w1))).
  assert (∀ rel p, below dir p = false → p ≠ dir +:+ "/" +:+ rel) as Hout.
  { intros rel p Hp ->. by rewrite below_join in Hp. }
  exists zip. cbn [files]. split_and!.
  - rewrite lookup_delete_ne by exact (Hname (files w1)). apply lookup_insert_eq.
  - apply NoDup_archive_entries.
  - intros entry.
    rewrite (archive_of_insert_outside dir name (Data "") (files w1) zip
               (Htmp (files w1)) (archive_of_archive_entries _ _) entry).
    split; intros (rel & f & Hf & ->); exists rel, f; split; try done.
    + rewrite lookup_delete_ne by exact (Hout rel _ (Htmp (files w1))).
      rewrite lookup_insert_ne by exact (Hout rel _ Harchive).
      rewrite lookup_delete_ne by exact (Hout rel _ (Htmpzip (files w1))).
      rewrite lookup_insert_ne by exact (Hout rel _ (Htmpzip (files w1))).
      rewrite lookup_insert_ne by exact (Hout rel _ (Htmp (files w1))). done.
    + rewrite lookup_delete_ne in Hf by exact (Hout rel _ (Htmp (files w1))).
      rewrite lookup_insert_ne in Hf by exact (Hout rel _ Harchive).
      rewrite lookup_delete_ne in Hf by exact (Hout rel _ (Htmpzip (files w1))).
      rewrite lookup_insert_ne in Hf by exact (Hout rel _ (Htmpzip (files w1))).
      rewrite lookup_insert_ne in Hf by exact (Hout rel _ (Htmp (files w1))). done.
Qed.

Lemma fix_icon_run_leaves_archive_matching_tree_witness :
  ∃ zip,
    files (OptionsWorker_run Demo.platform (Demo.options_worker true false "")
             Demo.extracted).2 !! "C:/dl/demo.zip" = Some (Zip zip)
    ∧ NoDup zip
    ∧ archive_of "C:/tmp/run"
        (files (OptionsWorker_run Demo.platform
                  (Demo.options_worker true false "") Demo.extracted).2) zip.
Proof.
  apply (fix_icon_run_leaves_archive_matching_tree Demo.platform
           (Demo.options_worker true false "") Demo.extracted).
  - reflexivity.
  - reflexivity.
  - intros fs. reflexivity.
  - intros fs. reflexivity.
  - intros fs. discriminate.
  - reflexivity.
  - by vm_compute.
Defined.
